(** * Transport-channel discovery and lifecycle of the guest agent

    A shallow embedding of [channel.go]: the discovery loop [newChannel],
    the capability probe [isAFVSockSupported], the device-path resolver
    [findVirtualSerialPath] and the serial variant's [setup], [wait],
    [listen] and [teardown].

    The operating system is an explicit [World] of system-call results; the
    Go standard-library helpers the file calls ([os.IsNotExist],
    [filepath.Join], [strings.Contains], [ioutil.ReadFile]) are modelled on
    top of it.  Debug-level log lines are left out of the effect trace;
    the external [vsock.Listen] and the log writer handed to yamux are
    not modelled. *)

From Stdlib Require Import ZArith String Ascii List Bool Lia.
Import ListNotations.

Open Scope Z_scope.

(* ================================================================== *)
(** * Errors *)
(* ================================================================== *)

(** The dynamic types behind Go's [error] interface that this file can
    produce or receive. *)
Inductive error : Type :=
| Errno (e : Z)                               (* syscall.Errno *)
| PathError (op path : string) (err : error)  (* *os.PathError *)
| ErrorString (msg : string)                  (* fmt.Errorf without verbs *)
| StatusError (code : Z) (msg : string).      (* gRPC status error *)

(** Linux errno values used below. *)
Definition ENOENT : Z := 2.
Definition EIO : Z := 5.
Definition EACCES : Z := 13.
Definition ENOTDIR : Z := 20.
Definition EMFILE : Z := 24.
Definition EAFNOSUPPORT : Z := 97.

(** [codes.NotFound] of the gRPC status package. *)
Definition codes_NotFound : Z := 5.

(** [err == unix.E...]: an interface value equals an [Errno] constant when
    its dynamic type is [Errno] and the numbers agree. *)
Definition error_is_errno (err : error) (e : Z) : bool :=
  match err with
  | Errno e' => e' =? e
  | _ => false
  end.

(** [os.underlyingError]: one level of unwrapping. *)
Definition underlyingError (err : error) : error :=
  match err with
  | PathError _ _ inner => inner
  | _ => err
  end.

(** [os.IsNotExist]. *)
Definition os_IsNotExist (err : error) : bool :=
  error_is_errno (underlyingError err) ENOENT.

(** Whether [err] is [cause] or wraps it (the chain followed by
    [errors.Unwrap]). *)
Fixpoint error_eqb (a b : error) : bool :=
  match a, b with
  | Errno x, Errno y => x =? y
  | PathError o p e, PathError o' p' e' =>
      String.eqb o o' && String.eqb p p' && error_eqb e e'
  | ErrorString m, ErrorString m' => String.eqb m m'
  | StatusError c m, StatusError c' m' => (c =? c') && String.eqb m m'
  | _, _ => false
  end.

Fixpoint error_carries (e cause : error) : bool :=
  error_eqb e cause ||
  match e with
  | PathError _ _ inner => error_carries inner cause
  | _ => false
  end.

(** Whether a gRPC status error has the not-found code. *)
Definition is_rpc_not_found (err : error) : bool :=
  match err with
  | StatusError c _ => c =? codes_NotFound
  | _ => false
  end.

Definition isnil {A : Type} (o : option A) : bool :=
  match o with
  | None => true
  | Some _ => false
  end.

(* ================================================================== *)
(** * Strings and paths *)
(* ================================================================== *)

(** [strings.Contains s substr]. *)
Fixpoint strings_Contains (s substr : string) : bool :=
  String.prefix substr s ||
  match s with
  | EmptyString => false
  | String _ rest => strings_Contains rest substr
  end.

Definition slash : ascii := "/"%char.

(** Components of a path between separators. *)
Fixpoint split_path (s : string) : list string :=
  match s with
  | EmptyString => [EmptyString]
  | String c rest =>
      if Ascii.eqb c slash then EmptyString :: split_path rest
      else match split_path rest with
           | [] => [String c EmptyString]
           | h :: t => String c h :: t
           end
  end.

(** [strings.Join elems "/"]. *)
Fixpoint join_slash (elems : list string) : string :=
  match elems with
  | [] => EmptyString
  | [e] => e
  | e :: rest => String.append e (String slash (join_slash rest))
  end.

(** The lexical processing of [filepath.Clean] on components: empty and
    [.] components vanish, [..] removes the component before it; a
    relative path keeps leading [..], a rooted path drops them.  [stack]
    holds the kept components, last one first. *)
Fixpoint clean_components (rooted : bool) (comps stack : list string)
  : list string :=
  match comps with
  | [] => rev stack
  | c :: cs =>
      if String.eqb c "" || String.eqb c "." then
        clean_components rooted cs stack
      else if String.eqb c ".." then
        match stack with
        | top :: below =>
            if String.eqb top ".." then clean_components rooted cs (c :: stack)
            else clean_components rooted cs below
        | [] =>
            if rooted then clean_components rooted cs []
            else clean_components rooted cs [c]
        end
      else clean_components rooted cs (c :: stack)
  end.

(** [filepath.Clean]. *)
Definition filepath_Clean (path : string) : string :=
  match path with
  | EmptyString => "."%string
  | String c _ =>
      let rooted := Ascii.eqb c slash in
      let body := join_slash (clean_components rooted (split_path path) []) in
      let out := if rooted then String slash body else body in
      match out with
      | EmptyString => "."%string
      | _ => out
      end
  end.

(** [filepath.Join]: leading empty elements are skipped, the rest is
    joined with the separator and cleaned. *)
Fixpoint filepath_Join (elem : list string) : string :=
  match elem with
  | [] => EmptyString
  | e :: rest =>
      if String.eqb e "" then filepath_Join rest
      else filepath_Clean (join_slash elem)
  end.

(* ================================================================== *)
(** * The operating system *)
(* ================================================================== *)

(** Result of a system call that yields a value. *)
Inductive sysres (A : Type) : Type :=
| Done (a : A)
| Failed (errno : Z).
Arguments Done {A} a.
Arguments Failed {A} errno.

(** What the kernel answers at one instant.  A call without a value
    yields [None] on success and [Some errno] on failure. *)
Record World : Type := {
  sys_stat : string -> option Z;
  sys_open : string -> sysres Z;               (* a descriptor *)
  sys_readdir : string -> sysres (list string);(* names, without . and .. *)
  sys_read : string -> sysres string;          (* whole content *)
  sys_socket : Z -> Z -> Z -> sysres Z;        (* domain, type, protocol *)
  sys_close : Z -> option Z
}.

Definition AF_VSOCK : Z := 40.
Definition SOCK_STREAM : Z := 1.

(** [os.Stat]: only the error is used by the caller. *)
Definition os_Stat (w : World) (path : string) : option error :=
  match sys_stat w path with
  | None => None
  | Some e => Some (PathError "stat" path (Errno e))
  end.

(** [ioutil.ReadFile]: open, then read everything. *)
Definition ioutil_ReadFile (w : World) (path : string)
  : string * option error :=
  match sys_open w path with
  | Failed e => (EmptyString, Some (PathError "open" path (Errno e)))
  | Done _ =>
      match sys_read w path with
      | Failed e => (EmptyString, Some (PathError "read" path (Errno e)))
      | Done content => (content, None)
      end
  end.

(* ================================================================== *)
(** * Package-level variables and constants *)
(* ================================================================== *)

(** The variables declared at the top of the file, together with the
    constants the file uses but that are declared elsewhere in the
    package ([vSockDevPath], [virtIOPath], [devRootPath],
    [serialChannelName]), taken as parameters. *)
Record Package : Type := {
  vSockDevPath : string;
  virtIOPath : string;
  devRootPath : string;
  serialChannelName : string;
  channelExistMaxTries : Z;                    (* int *)
  channelExistWaitTime : Z;                    (* time.Duration, in ns *)
  channelCloseTimeout : Z;                     (* time.Duration, in ns *)
  isAFVSockSupportedFunc : World -> bool * option error
}.

Definition Millisecond : Z := 1000000.
Definition Second : Z := 1000 * Millisecond.

(* ================================================================== *)
(** * Capability probe *)
(* ================================================================== *)

Definition isAFVSockSupported (w : World) : bool * option error :=
  match sys_socket w AF_VSOCK SOCK_STREAM 0 with
  | Failed e =>
      (* This case is valid: AF_VSOCK is not a supported domain. *)
      if error_is_errno (Errno e) EAFNOSUPPORT then (false, None)
      else (false, Some (Errno e))
  | Done fd =>
      match sys_close w fd with
      | Some e => (true, Some (Errno e))
      | None => (true, None)
      end
  end.

(** The package as the file initialises it; the four constants get the
    values the agent declares for them. *)
Definition agent : Package := {|
  vSockDevPath := "/dev/vsock";
  virtIOPath := "/sys/class/virtio-ports";
  devRootPath := "/dev";
  serialChannelName := "agent.channel.0";
  channelExistMaxTries := 200;
  channelExistWaitTime := 50 * Millisecond;
  channelCloseTimeout := 5 * Second;
  isAFVSockSupportedFunc := isAFVSockSupported
|}.

(* ================================================================== *)
(** * Device-path resolver *)
(* ================================================================== *)

Section Resolver.
Variable pkg : Package.
Variable w : World.

(** The body of [for _, port := range ports]; [None] stands for the
    loop running to its end without returning. *)
Fixpoint scan_ports (serialName : string) (ports : list string)
  : option (string * option error) :=
  match ports with
  | [] => None
  | port :: rest =>
      let path := filepath_Join [virtIOPath pkg; port; "name"%string] in
      match ioutil_ReadFile w path with
      | (_, Some err) =>
          if os_IsNotExist err then scan_ports serialName rest
          else Some (EmptyString, Some err)
      | (content, None) =>
          if strings_Contains content serialName then
            Some (filepath_Join [devRootPath pkg; port], None)
          else scan_ports serialName rest
      end
  end.

Definition not_found_error (serialName : string) : error :=
  StatusError codes_NotFound
    (String.append "Could not find virtio port " serialName).

(** The deferred [dir.Close()] does not bear on what is returned. *)
Definition findVirtualSerialPath (serialName : string)
  : string * option error :=
  match sys_open w (virtIOPath pkg) with
  | Failed e =>
      (EmptyString, Some (PathError "open" (virtIOPath pkg) (Errno e)))
  | Done _ =>
      match sys_readdir w (virtIOPath pkg) with
      | Failed e =>
          (EmptyString,
           Some (PathError "readdirent" (virtIOPath pkg) (Errno e)))
      | Done ports =>
          match scan_ports serialName ports with
          | Some r => r
          | None => (EmptyString, Some (not_found_error serialName))
          end
      end
  end.
End Resolver.

(* ================================================================== *)
(** * Channels *)
(* ================================================================== *)

(** An [*os.File]: the descriptor number and whether [Close] was already
    called on it. *)
Record File : Type := {
  file_fd : Z;
  file_closed : bool
}.

(** The close-notification channel of a multiplexing session: the delay
    after which it is closed, measured from the moment [teardown] starts
    to wait; [None] when it is never closed. *)
Definition closeChan : Type := option Z.

Record vSockChannel : Type := mkVSock {}.

Record serialChannel : Type := {
  serialPath : string;
  serialConn : option File;                     (* nil before setup *)
  waitCh : option closeChan                     (* nil before listen *)
}.

Inductive channel : Type :=
| VSock (c : vSockChannel)
| Serial (c : serialChannel).

(** [&serialChannel{serialPath: serialPath}] *)
Definition new_serialChannel (path : string) : serialChannel :=
  {| serialPath := path; serialConn := None; waitCh := None |}.

(* ================================================================== *)
(** * Discovery *)
(* ================================================================== *)

(** Observable effects of [newChannel], in program order. *)
Inductive effect : Type :=
| SpanStart (component name : string)
| SpanSetTag (key value : string)
| SpanFinish
| Sleep (d : Z)
| LogError (err : error) (msg : string).

(** The four local variables declared before the loop. *)
Record locals : Type := {
  serialErr : option error;
  serialPath_var : string;
  vsockErr : option error;
  vSockSupported : bool
}.

Definition locals_init : locals :=
  {| serialErr := None; serialPath_var := EmptyString;
     vsockErr := None; vSockSupported := false |}.

(** What one pass through the loop body does: return a channel (after
    tagging the span) or fall out of both branches towards the sleep. *)
Inductive passed : Type :=
| Return (ch : channel) (tags : list effect)
| Continue (l : locals).

(** What [newChannel] returns, with the effects it had. *)
Record outcome : Type := {
  ret_channel : option channel;
  ret_err : option error;
  effects : list effect
}.

Section Discovery.
Variable pkg : Package.

(** [// Check serial port path] *)
Definition check_serial (w : World) (l : locals) : passed :=
  let '(p, e) := findVirtualSerialPath pkg w (serialChannelName pkg) in
  let l' := {| serialErr := e; serialPath_var := p;
               vsockErr := vsockErr l;
               vSockSupported := vSockSupported l |} in
  if isnil e then
    Return (Serial (new_serialChannel p))
           [SpanSetTag "channel-type" "serial"; SpanSetTag "serial-path" p]
  else Continue l'.

(** The loop body up to, and without, [time.Sleep]. *)
Definition loop_body (w : World) (l : locals) : passed :=
  (* check vsock path *)
  match os_Stat w (vSockDevPath pkg) with
  | None =>
      let '(s, e) := isAFVSockSupportedFunc pkg w in
      let l' := {| serialErr := serialErr l;
                   serialPath_var := serialPath_var l;
                   vsockErr := e; vSockSupported := s |} in
      if s && isnil e then
        Return (VSock mkVSock) [SpanSetTag "channel-type" "vsock"]
      else check_serial w l'
  | Some _ => check_serial w l
  end.

(** The statements after the loop. *)
Definition exhausted (l : locals) (tr : list effect) : outcome :=
  let log_serial :=
    match serialErr l with
    | Some e => [LogError e "Serial port not found"]
    | None => []
    end in
  let log_vsock :=
    match vsockErr l with
    | Some e => [LogError e "VSock not found"]
    | None => []
    end in
  {| ret_channel := None;
     ret_err := Some (ErrorString "Neither vsocks nor serial ports were found");
     effects := tr ++ log_serial ++ log_vsock ++ [SpanFinish] |}.

(** [for i := 0; i < channelExistMaxTries; i++]: [todo] passes remain,
    pass [i] sees the world [env i]. *)
Fixpoint discovery_loop (env : nat -> World) (todo i : nat)
         (l : locals) (tr : list effect) : outcome :=
  match todo with
  | O => exhausted l tr
  | S todo' =>
      match loop_body (env i) l with
      | Return ch tags =>
          {| ret_channel := Some ch; ret_err := None;
             effects := tr ++ tags ++ [SpanFinish] |}
      | Continue l' =>
          discovery_loop env todo' (S i) l'
                         (tr ++ [Sleep (channelExistWaitTime pkg)])
      end
  end.

Definition newChannel (env : nat -> World) : outcome :=
  discovery_loop env (Z.to_nat (channelExistMaxTries pkg)) 0 locals_init
                 [SpanStart "channel" "newChannel"].
End Discovery.

(** The sleeps among the effects, and the time they block: [time.Sleep]
    returns at once for a duration that is not positive. *)
Fixpoint sleeps (tr : list effect) : list Z :=
  match tr with
  | [] => []
  | Sleep d :: rest => d :: sleeps rest
  | _ :: rest => sleeps rest
  end.

Definition blocked_time (tr : list effect) : Z :=
  fold_right (fun d acc => Z.max 0 d + acc) 0 (sleeps tr).

Fixpoint logged_errors (tr : list effect) : list (error * string) :=
  match tr with
  | [] => []
  | LogError e m :: rest => (e, m) :: logged_errors rest
  | _ :: rest => logged_errors rest
  end.

(* ================================================================== *)
(** * The socket variant *)
(* ================================================================== *)

Definition vSock_setup (c : vSockChannel) : option error := None.
Definition vSock_wait (c : vSockChannel) : option error := None.
Definition vSock_teardown (c : vSockChannel) : option error := None.

(* ================================================================== *)
(** * The serial variant *)
(* ================================================================== *)

(** [c.serialConn.Fd()]: a nil or closed file answers [^uintptr(0)]. *)
Definition File_Fd (f : option File) : Z :=
  match f with
  | Some f => if file_closed f then 2 ^ 64 - 1 else file_fd f
  | None => 2 ^ 64 - 1
  end.

(** [c.serialConn.Close()], with the descriptors handed to [close(2)]. *)
Definition File_Close (w : World) (name : string) (f : option File)
  : option File * option error * list Z :=
  match f with
  | None => (None, Some (ErrorString "invalid argument"), [])
  | Some f =>
      if file_closed f then
        (Some f, Some (PathError "close" name (ErrorString "file already closed")), [])
      else
        (Some {| file_fd := file_fd f; file_closed := true |},
         match sys_close w (file_fd f) with
         | Some e => Some (PathError "close" name (Errno e))
         | None => None
         end,
         [file_fd f])
  end.

Definition serial_setup (w : World) (c : serialChannel)
  : serialChannel * option error :=
  (* Open serial channel. *)
  match sys_open w (serialPath c) with
  | Failed e => (c, Some (PathError "open" (serialPath c) (Errno e)))
  | Done fd =>
      ({| serialPath := serialPath c;
          serialConn := Some {| file_fd := fd; file_closed := false |};
          waitCh := waitCh c |}, None)
  end.

(** ** Readiness wait *)

Definition EPOLLIN : Z := 0x1.
Definition EPOLLOUT : Z := 0x4.
Definition EPOLLERR : Z := 0x8.
Definition EPOLLHUP : Z := 0x10.
Definition EPOLLET : Z := - 0x80000000.
Definition EPOLL_CLOEXEC : Z := 0x80000.
Definition EPOLL_CTL_ADD : Z := 1.
Definition EPOLL_CTL_DEL : Z := 2.

Record EpollEvent : Type := {
  Events : Z;                                   (* uint32 *)
  Fd : Z                                        (* int32 *)
}.

(** The conversion [int32(fd)] of a [uintptr]. *)
Definition int32 (z : Z) : Z := (z + 2 ^ 31) mod 2 ^ 32 - 2 ^ 31.

(** The epoll answers [wait] gets: for [EpollCreate1], for the
    registering [EpollCtl], and for the successive [EpollWait] calls
    (each an error or the [nev] events written to the one-slot buffer). *)
Record Epoll : Type := {
  epoll_create1 : Z -> sysres Z;
  epoll_ctl : Z -> Z -> Z -> option EpollEvent -> option Z;
  epoll_wait : list (sysres (list EpollEvent))
}.

(** The interest set written to [event.Events]; [&] binds tighter than
    [|] in Go. *)
Definition wait_interest : Z :=
  Z.lor EPOLLOUT (Z.land EPOLLET 0xffffffff).

(** [for i := 0; i < nev; i++]: [Some r] when the body returns [r],
    [None] when the events run out. *)
Fixpoint handle_events (fd : Z) (evs : list EpollEvent)
  : option (option error) :=
  match evs with
  | [] => None
  | ev :: rest =>
      if Fd ev =? int32 fd then
        if negb (Z.land (Events ev) EPOLLOUT =? 0) then Some None
        else if negb (Z.land (Events ev) EPOLLERR =? 0) then
          Some (Some (ErrorString "serial port IO failure"))
        else if negb (Z.land (Events ev) EPOLLHUP =? 0) then
          handle_events fd rest
        else handle_events fd rest
      else handle_events fd rest
  end.

(** A call that has not returned after the listed answers is [Blocked]
    in the next [EpollWait]. *)
Inductive waited : Type :=
| Returned (err : option error)
| Blocked.

(** The outer [for] of [wait]. *)
Fixpoint wait_loop (fd : Z) (answers : list (sysres (list EpollEvent)))
  : waited :=
  match answers with
  | [] => Blocked
  | Failed e :: _ => Returned (Some (Errno e))
  | Done evs :: rest =>
      match handle_events fd evs with
      | Some r => Returned r
      | None => wait_loop fd rest
      end
  end.

(** The deferred [unix.Close(epfd)] and [EPOLL_CTL_DEL] do not bear on
    what is returned. *)
Definition serial_wait (k : Epoll) (c : serialChannel) : waited :=
  let fd := File_Fd (serialConn c) in
  if fd =? 0 then Returned (Some (ErrorString "serial port IO closed"))
  else
    match epoll_create1 k EPOLL_CLOEXEC with
    | Failed e => Returned (Some (Errno e))
    | Done epfd =>
        let event := {| Events := wait_interest; Fd := int32 fd |} in
        match epoll_ctl k epfd EPOLL_CTL_ADD fd (Some event) with
        | Some e => Returned (Some (Errno e))
        | None => wait_loop fd (epoll_wait k)
        end
    end.

(** ** Session handoff *)




(** ** Teardown *)

(** Which case of the [select] runs, and when.  The timer fires after
    [timeout]; when both channels are ready at the same instant Go picks
    either, which [tie_timer] decides. *)
Inductive selected : Type :=
| Notified (at_time : Z)
| TimedOut (at_time : Z).

Definition select_close (timeout : Z) (ch : closeChan) (tie_timer : bool)
  : selected :=
  let deadline := Z.max 0 timeout in
  match ch with
  | None => TimedOut deadline
  | Some t =>
      let t := Z.max 0 t in
      if t <? deadline then Notified t
      else if deadline <? t then TimedOut deadline
      else if tie_timer then TimedOut deadline else Notified t
  end.

(** What [teardown] leaves behind: its error, the channel afterwards,
    the time it took and the descriptors it handed to [close(2)]. *)
Record torn : Type := {
  td_err : option error;
  td_chan : serialChannel;
  td_elapsed : Z;
  td_closed : list Z
}.

Section Teardown.
Variable pkg : Package.
Variable w : World.

Definition close_conn (c : serialChannel) (elapsed : Z) : torn :=
  let '(f, err, fds) := File_Close w (serialPath c) (serialConn c) in
  {| td_err := err;
     td_chan := {| serialPath := serialPath c; serialConn := f;
                   waitCh := waitCh c |};
     td_elapsed := elapsed;
     td_closed := fds |}.

Definition serial_teardown (tie_timer : bool) (c : serialChannel) : torn :=
  (* wait for the session to be fully shutdown first *)
  match waitCh c with
  | Some ch =>
      match select_close (channelCloseTimeout pkg) ch tie_timer with
      | Notified t => close_conn c t
      | TimedOut t =>
          {| td_err :=
               Some (ErrorString "timeout waiting for yamux channel to close");
             td_chan := c; td_elapsed := t; td_closed := [] |}
      end
  | None => close_conn c 0
  end.
End Teardown.

(** Whether the channel's descriptor is closed. *)
Definition conn_closed (c : serialChannel) : bool :=
  match serialConn c with
  | Some f => file_closed f
  | None => false
  end.

(* ================================================================== *)
(** * Vocabulary of the statements *)
(* ================================================================== *)

(** The name file of a child of the virtio-ports directory. *)
Definition name_file (pkg : Package) (port : string) : string :=
  filepath_Join [virtIOPath pkg; port; "name"%string].

(** A child the resolver walks past: its name file does not exist, or it
    was read and does not contain the name looked for. *)
Definition passed_over (pkg : Package) (w : World) (serialName port : string)
  : bool :=
  match ioutil_ReadFile w (name_file pkg port) with
  | (_, Some err) => os_IsNotExist err
  | (content, None) => negb (strings_Contains content serialName)
  end.

(** The listing of the virtio-ports directory was obtained. *)
Definition root_listed (pkg : Package) (w : World) (ports : list string)
  : Prop :=
  (exists fd, sys_open w (virtIOPath pkg) = Done fd) /\
  sys_readdir w (virtIOPath pkg) = Done ports.

(** The two conditions under which a pass of the discovery loop returns. *)
Definition vsock_usable (pkg : Package) (w : World) : bool :=
  isnil (os_Stat w (vSockDevPath pkg)) &&
  (fst (isAFVSockSupportedFunc pkg w) && isnil (snd (isAFVSockSupportedFunc pkg w))).

Definition serial_usable (pkg : Package) (w : World) : bool :=
  isnil (snd (findVirtualSerialPath pkg w (serialChannelName pkg))).

(** Neither transport is usable in the passes [i], ..., [i + n - 1]. *)
Fixpoint unavailable (pkg : Package) (env : nat -> World) (i n : nat) : bool :=
  match n with
  | O => true
  | S n' =>
      negb (vsock_usable pkg (env i)) && negb (serial_usable pkg (env i)) &&
      unavailable pkg env (S i) n'
  end.

(** The locals after a pass that found neither transport. *)
Definition observe (pkg : Package) (w : World) (l : locals) : locals :=
  let probed := isnil (os_Stat w (vSockDevPath pkg)) in
  let r := findVirtualSerialPath pkg w (serialChannelName pkg) in
  {| serialErr := snd r;
     serialPath_var := fst r;
     vsockErr := if probed then snd (isAFVSockSupportedFunc pkg w) else vsockErr l;
     vSockSupported :=
       if probed then fst (isAFVSockSupportedFunc pkg w) else vSockSupported l |}.

(** The locals after [n] such passes, the first of them pass [i]. *)
Fixpoint observe_all (pkg : Package) (env : nat -> World) (i n : nat)
         (l : locals) : locals :=
  match n with
  | O => l
  | S n' => observe_all pkg env (S i) n' (observe pkg (env i) l)
  end.

(** The error of the resolver in the last of the first [n] passes. *)
Definition last_serial_error (pkg : Package) (env : nat -> World) (n : nat)
  : option error :=
  match n with
  | O => None
  | S m => snd (findVirtualSerialPath pkg (env m) (serialChannelName pkg))
  end.

(** The error (possibly nil) of the most recent call of the probe in the
    first [n] passes; the probe is called in the passes that find the
    socket device path. *)
Fixpoint last_probe_error (pkg : Package) (env : nat -> World) (n : nat)
  : option error :=
  match n with
  | O => None
  | S m =>
      if isnil (os_Stat (env m) (vSockDevPath pkg))
      then snd (isAFVSockSupportedFunc pkg (env m))
      else last_probe_error pkg env m
  end.

Definition not_found_log (e : option error) (msg : string)
  : list (error * string) :=
  match e with
  | Some err => [(err, msg)]
  | None => []
  end.

(** Flags that carry neither the writable nor the error condition, as a
    hangup alone does. *)
Definition flags_quiet (f : Z) : bool :=
  (Z.land f EPOLLOUT =? 0) && (Z.land f EPOLLERR =? 0).

(** One event per answer of [EpollWait], all for the descriptor [fd]. *)
Definition delivered (fd : Z) (flags : list Z) : list (sysres (list EpollEvent)) :=
  map (fun f => Done [{| Events := f; Fd := int32 fd |}]) flags.

(** An epoll instance that can be created and accepts the registration. *)
Definition epoll_with (answers : list (sysres (list EpollEvent))) : Epoll := {|
  epoll_create1 := fun _ => Done 9;
  epoll_ctl := fun _ _ _ _ => None;
  epoll_wait := answers
|}.

(** A serial channel after [setup] on descriptor [fd]. *)
Definition opened (path : string) (fd : Z) : serialChannel :=
  {| serialPath := path;
     serialConn := Some {| file_fd := fd; file_closed := false |};
     waitCh := None |}.

(** A serial channel after [listen], whose session closes after [ch]. *)
Definition serving (path : string) (fd : Z) (ch : closeChan) : serialChannel :=
  {| serialPath := path;
     serialConn := Some {| file_fd := fd; file_closed := false |};
     waitCh := Some ch |}.

(* ================================================================== *)
(** * Example worlds *)
(* ================================================================== *)

(** A guest with neither transport: no device node, no virtio ports
    directory, no AF_VSOCK in the kernel. *)
Definition bare_world : World := {|
  sys_stat := fun _ => Some ENOENT;
  sys_open := fun _ => Failed ENOENT;
  sys_readdir := fun _ => Failed ENOENT;
  sys_read := fun _ => Failed ENOENT;
  sys_socket := fun _ _ _ => Failed EAFNOSUPPORT;
  sys_close := fun _ => None
|}.

(** A virtio-ports directory with three children, enumerated as [B],
    [C], [A]: [A] is named [name=foo], [B] has no name file, [C] is
    named [xxxfooyyy].  Nothing else exists. *)
Definition three_ports : World := {|
  sys_stat := fun _ => Some ENOENT;
  sys_open := fun p =>
    if String.eqb p "/sys/class/virtio-ports" then Done 3
    else if String.eqb p "/sys/class/virtio-ports/A/name" then Done 4
    else if String.eqb p "/sys/class/virtio-ports/C/name" then Done 4
    else Failed ENOENT;
  sys_readdir := fun p =>
    if String.eqb p "/sys/class/virtio-ports" then Done ["B"; "C"; "A"]%string
    else Failed ENOTDIR;
  sys_read := fun p =>
    if String.eqb p "/sys/class/virtio-ports/A/name" then Done "name=foo"%string
    else if String.eqb p "/sys/class/virtio-ports/C/name" then Done "xxxfooyyy"%string
    else Failed EIO;
  sys_socket := fun _ _ _ => Failed EAFNOSUPPORT;
  sys_close := fun _ => None
|}.

(** The same directory where reading the name file of [B] is refused. *)
Definition three_ports_denied : World := {|
  sys_stat := sys_stat three_ports;
  sys_open := fun p =>
    if String.eqb p "/sys/class/virtio-ports/B/name" then Failed EACCES
    else sys_open three_ports p;
  sys_readdir := sys_readdir three_ports;
  sys_read := sys_read three_ports;
  sys_socket := sys_socket three_ports;
  sys_close := sys_close three_ports
|}.

(** A guest whose serial port [vport0p1] carries the agent's channel
    name; no socket transport. *)
Definition serial_world : World := {|
  sys_stat := fun _ => Some ENOENT;
  sys_open := fun p =>
    if String.eqb p "/sys/class/virtio-ports" then Done 3
    else if String.eqb p "/sys/class/virtio-ports/vport0p1/name" then Done 4
    else if String.eqb p "/dev/vport0p1" then Done 5
    else Failed ENOENT;
  sys_readdir := fun p =>
    if String.eqb p "/sys/class/virtio-ports" then Done ["vport0p1"]%string
    else Failed ENOTDIR;
  sys_read := fun p =>
    if String.eqb p "/sys/class/virtio-ports/vport0p1/name"
    then Done "agent.channel.0"%string else Failed EIO;
  sys_socket := fun _ _ _ => Failed EAFNOSUPPORT;
  sys_close := fun _ => None
|}.

(** The same guest once the socket device node has appeared and the
    kernel supports the address family. *)
Definition vsock_world : World := {|
  sys_stat := fun p =>
    if String.eqb p "/dev/vsock" then None else Some ENOENT;
  sys_open := sys_open serial_world;
  sys_readdir := sys_readdir serial_world;
  sys_read := sys_read serial_world;
  sys_socket := fun _ _ _ => Done 7;
  sys_close := fun _ => None
|}.

(** The socket device node exists and a socket can be created, but
    releasing it fails. *)
Definition vsock_release_fails : World := {|
  sys_stat := sys_stat vsock_world;
  sys_open := sys_open serial_world;
  sys_readdir := sys_readdir serial_world;
  sys_read := sys_read serial_world;
  sys_socket := fun _ _ _ => Done 7;
  sys_close := fun _ => Some EIO
|}.

(** The socket device node exists but no descriptor is left to create a
    socket; the virtio-ports directory may not be opened. *)
Definition starved_world : World := {|
  sys_stat := sys_stat vsock_world;
  sys_open := fun _ => Failed EACCES;
  sys_readdir := fun _ => Failed EACCES;
  sys_read := fun _ => Failed EACCES;
  sys_socket := fun _ _ _ => Failed EMFILE;
  sys_close := fun _ => None
|}.

(** The package with another retry budget. *)
Definition with_tries (pkg : Package) (n : Z) : Package := {|
  vSockDevPath := vSockDevPath pkg;
  virtIOPath := virtIOPath pkg;
  devRootPath := devRootPath pkg;
  serialChannelName := serialChannelName pkg;
  channelExistMaxTries := n;
  channelExistWaitTime := channelExistWaitTime pkg;
  channelCloseTimeout := channelCloseTimeout pkg;
  isAFVSockSupportedFunc := isAFVSockSupportedFunc pkg
|}.

(* ================================================================== *)
(** * Further vocabulary *)
(* ================================================================== *)

Definition EINTR : Z := 4.

(** The package with another capability probe, as a test replaces
    [isAFVSockSupportedFunc]. *)
Definition with_probe (pkg : Package) (probe : World -> bool * option error)
  : Package := {|
  vSockDevPath := vSockDevPath pkg;
  virtIOPath := virtIOPath pkg;
  devRootPath := devRootPath pkg;
  serialChannelName := serialChannelName pkg;
  channelExistMaxTries := channelExistMaxTries pkg;
  channelExistWaitTime := channelExistWaitTime pkg;
  channelCloseTimeout := channelCloseTimeout pkg;
  isAFVSockSupportedFunc := probe
|}.

(** Two packages that name the same devices. *)
Definition same_paths (pkg pkg' : Package) : Prop :=
  vSockDevPath pkg = vSockDevPath pkg' /\
  virtIOPath pkg = virtIOPath pkg' /\
  devRootPath pkg = devRootPath pkg' /\
  serialChannelName pkg = serialChannelName pkg'.

(** The start and the end of the span among the effects. *)
Fixpoint span_marks (tr : list effect) : list effect :=
  match tr with
  | [] => []
  | SpanStart c n :: rest => SpanStart c n :: span_marks rest
  | SpanFinish :: rest => SpanFinish :: span_marks rest
  | _ :: rest => span_marks rest
  end.

(** The tags set on the span. *)
Fixpoint span_tags (tr : list effect) : list (string * string) :=
  match tr with
  | [] => []
  | SpanSetTag k v :: rest => (k, v) :: span_tags rest
  | _ :: rest => span_tags rest
  end.

(** The tags that describe a returned channel. *)
Definition transport_tags (ch : option channel) : list (string * string) :=
  match ch with
  | Some (VSock _) => [("channel-type", "vsock")]%string
  | Some (Serial c) =>
      [("channel-type", "serial"); ("serial-path", serialPath c)]%string
  | None => []
  end.

(** A directory entry name: no separator in it, and none of the empty
    name, [.] and [..]. *)
Fixpoint no_slash (s : string) : bool :=
  match s with
  | EmptyString => true
  | String c rest => negb (Ascii.eqb c slash) && no_slash rest
  end.

Definition plain_name (s : string) : bool :=
  no_slash s && negb (String.eqb s "") && negb (String.eqb s ".")
  && negb (String.eqb s "..").

(** The same epoll instance with further answers of [EpollWait]. *)
Definition more_answers (k : Epoll) (extra : list (sysres (list EpollEvent)))
  : Epoll := {|
  epoll_create1 := epoll_create1 k;
  epoll_ctl := epoll_ctl k;
  epoll_wait := epoll_wait k ++ extra
|}.

(** The error [teardown] reports when the session does not close. *)
Definition teardown_timeout_error : error :=
  ErrorString "timeout waiting for yamux channel to close".

(** The timer wins the [select]: the session never closes, closes after
    the deadline, or closes at the deadline with the timer case picked. *)
Definition timer_wins (timeout : Z) (ch : closeChan) (tie_timer : bool) : Prop :=
  match ch with
  | None => True
  | Some t =>
      Z.max 0 timeout < Z.max 0 t \/
      (Z.max 0 t = Z.max 0 timeout /\ tie_timer = true)
  end.

(** The error of [c.serialConn.Close()] on an open file. *)
Definition close_error (w : World) (path : string) (fd : Z) : option error :=
  match sys_close w fd with
  | Some e => Some (PathError "close" path (Errno e))
  | None => None
  end.

(* ================================================================== *)
(** * Properties of the helpers *)
(* ================================================================== *)

Lemma prefix_append (p s : string) :
  String.prefix p s = true <-> exists t, s = String.append p t.
Proof.
  revert s. induction p as [|c p IH]; intros s.
  - split; [intros _; exists s; reflexivity | intros _; destruct s; reflexivity].
  - destruct s as [|d s]; simpl.
    + split; [discriminate | intros [t H]; discriminate].
    + destruct (ascii_dec c d) as [Heq|Hne].
      * subst d. split.
        -- intros H. apply IH in H. destruct H as [t ->]. exists t. reflexivity.
        -- intros [t H]. apply IH. exists t. congruence.
      * split; [discriminate | intros [t H]; congruence].
Qed.

(** [strings_Contains] decides the substring relation. *)
Lemma strings_Contains_spec (s sub : string) :
  strings_Contains s sub = true <->
  exists a b, s = String.append a (String.append sub b).
Proof.
  induction s as [|c s IH]; cbn [strings_Contains].
  - rewrite orb_false_r. split.
    + intros H. apply prefix_append in H. destruct H as [t H].
      exists EmptyString, t. exact H.
    + intros [a [b H]]. apply prefix_append. destruct a; simpl in H.
      * exists b. exact H.
      * discriminate.
  - rewrite orb_true_iff. split.
    + intros [H | H].
      * apply prefix_append in H. destruct H as [t H].
        exists EmptyString, t. exact H.
      * apply IH in H. destruct H as [a [b H]].
        exists (String c a), b. simpl. congruence.
    + intros [a [b H]]. destruct a as [|d a]; simpl in H.
      * left. apply prefix_append. exists b. exact H.
      * right. apply IH. exists a, b. congruence.
Qed.

Lemma os_IsNotExist_open_ENOENT (path : string) :
  os_IsNotExist (PathError "open" path (Errno ENOENT)) = true.
Proof. reflexivity. Qed.

(* ================================================================== *)
(** * Capability probe: properties *)
(* ================================================================== *)

Lemma probe_release_failure (w : World) (fd e : Z) :
  sys_socket w AF_VSOCK SOCK_STREAM 0 = Done fd ->
  sys_close w fd = Some e ->
  isAFVSockSupported w = (true, Some (Errno e)).
Proof. intros Hs Hc. unfold isAFVSockSupported. rewrite Hs, Hc. reflexivity. Qed.

(** C8: the probe answers [(false, nil)] exactly when creating the socket
    fails with EAFNOSUPPORT; any other creation failure comes back as
    [(false, err)] and a failure to release the socket as [(true, err)]. *)
Theorem probe_unsupported_iff (w : World) :
  (isAFVSockSupported w = (false, None) <->
   sys_socket w AF_VSOCK SOCK_STREAM 0 = Failed EAFNOSUPPORT) /\
  (forall e, sys_socket w AF_VSOCK SOCK_STREAM 0 = Failed e ->
             e <> EAFNOSUPPORT ->
             isAFVSockSupported w = (false, Some (Errno e))) /\
  (forall fd e, sys_socket w AF_VSOCK SOCK_STREAM 0 = Done fd ->
                sys_close w fd = Some e ->
                isAFVSockSupported w = (true, Some (Errno e))).
Proof.
  unfold isAFVSockSupported, error_is_errno. repeat split.
  - destruct (sys_socket w AF_VSOCK SOCK_STREAM 0) as [fd|e].
    + destruct (sys_close w fd); discriminate.
    + destruct (Z.eqb_spec e EAFNOSUPPORT); [congruence | discriminate].
  - intros ->. reflexivity.
  - intros e -> Hne. destruct (Z.eqb_spec e EAFNOSUPPORT); [contradiction | reflexivity].
  - intros fd e -> ->. reflexivity.
Qed.

(* ================================================================== *)
(** * Device-path resolver: properties *)
(* ================================================================== *)

Section ResolverProperties.
Variable pkg : Package.
Variable w : World.
Variable serialName : string.

Lemma scan_ports_cons_passed_over (port : string) (rest : list string) :
  passed_over pkg w serialName port = true ->
  scan_ports pkg w serialName (port :: rest) = scan_ports pkg w serialName rest.
Proof.
  unfold passed_over, name_file. cbn [scan_ports].
  destruct (ioutil_ReadFile w _) as [content [err|]]; intros H.
  - rewrite H. reflexivity.
  - apply negb_true_iff in H. rewrite H. reflexivity.
Qed.

Lemma scan_ports_skip_prefix (pre rest : list string) :
  forallb (passed_over pkg w serialName) pre = true ->
  scan_ports pkg w serialName (pre ++ rest) = scan_ports pkg w serialName rest.
Proof.
  induction pre as [|p pre IH]; intros H; [reflexivity|].
  cbn [forallb] in H. apply andb_true_iff in H. destruct H as [Hp Hpre].
  rewrite <- app_comm_cons, scan_ports_cons_passed_over by exact Hp.
  apply IH, Hpre.
Qed.

Lemma scan_ports_cons_match (port content : string) (rest : list string) :
  ioutil_ReadFile w (name_file pkg port) = (content, None) ->
  strings_Contains content serialName = true ->
  scan_ports pkg w serialName (port :: rest)
  = Some (filepath_Join [devRootPath pkg; port], None).
Proof.
  unfold name_file. cbn [scan_ports]. intros -> ->. reflexivity.
Qed.

Lemma scan_ports_cons_fatal (port junk : string) (err : error)
      (rest : list string) :
  ioutil_ReadFile w (name_file pkg port) = (junk, Some err) ->
  os_IsNotExist err = false ->
  scan_ports pkg w serialName (port :: rest) = Some (EmptyString, Some err).
Proof.
  unfold name_file. cbn [scan_ports]. intros -> ->. reflexivity.
Qed.

(** The loop runs to its end exactly when every child is passed over. *)
Lemma scan_ports_None_iff (ports : list string) :
  scan_ports pkg w serialName ports = None <->
  forallb (passed_over pkg w serialName) ports = true.
Proof.
  induction ports as [|p ports IH]; [split; reflexivity|].
  cbn [forallb]. rewrite andb_true_iff.
  destruct (passed_over pkg w serialName p) eqn:Hp.
  - rewrite scan_ports_cons_passed_over by exact Hp.
    split; [intros H; split; [reflexivity | apply IH, H] | intros [_ H]; apply IH, H].
  - split; [|intros [H _]; discriminate].
    unfold passed_over, name_file in Hp. cbn [scan_ports].
    destruct (ioutil_ReadFile w _) as [content [err|]].
    + rewrite Hp. discriminate.
    + apply negb_false_iff in Hp. rewrite Hp. discriminate.
Qed.

Lemma ioutil_ReadFile_error_shape (path junk : string) (err : error) :
  ioutil_ReadFile w path = (junk, Some err) ->
  exists op e, err = PathError op path (Errno e).
Proof.
  unfold ioutil_ReadFile.
  destruct (sys_open w path) as [fd|e].
  - destruct (sys_read w path) as [c|e]; intros H; inversion H; eauto.
  - intros H; inversion H; eauto.
Qed.

(** An error that leaves the loop early is a read failure, never a
    status error. *)
Lemma scan_ports_error_shape (ports : list string) (p : string) (err : error) :
  scan_ports pkg w serialName ports = Some (p, Some err) ->
  is_rpc_not_found err = false.
Proof.
  induction ports as [|port ports IH]; [discriminate|].
  cbn [scan_ports].
  destruct (ioutil_ReadFile w _) as [content [e|]] eqn:Hr.
  - destruct (os_IsNotExist e); [exact IH|].
    intros H. inversion H; subst.
    apply ioutil_ReadFile_error_shape in Hr. destruct Hr as [op [n ->]].
    reflexivity.
  - destruct (strings_Contains content serialName); [discriminate | exact IH].
Qed.

(** C6: with the root listed as [pre ++ port :: post] and every child of
    [pre] passed over, the resolver (1) skips [port] when its name file
    does not exist, answering as for the listing without it; (2) fails at
    once with the read error when reading the name file of [port] fails
    otherwise; (3) returns the path joined from the device root and
    [port] when the content of its name file contains the name. *)
Theorem resolver_walk (pre post : list string) (port : string) :
  root_listed pkg w (pre ++ port :: post) ->
  forallb (passed_over pkg w serialName) pre = true ->
  (forall junk err,
      ioutil_ReadFile w (name_file pkg port) = (junk, Some err) ->
      os_IsNotExist err = true ->
      findVirtualSerialPath pkg w serialName
      = match scan_ports pkg w serialName (pre ++ post) with
        | Some r => r
        | None => (EmptyString, Some (not_found_error serialName))
        end) /\
  (forall junk err,
      ioutil_ReadFile w (name_file pkg port) = (junk, Some err) ->
      os_IsNotExist err = false ->
      findVirtualSerialPath pkg w serialName = (EmptyString, Some err)) /\
  (forall content,
      ioutil_ReadFile w (name_file pkg port) = (content, None) ->
      strings_Contains content serialName = true ->
      findVirtualSerialPath pkg w serialName
      = (filepath_Join [devRootPath pkg; port], None)).
Proof.
  intros [[fd Hopen] Hlist] Hpre.
  unfold findVirtualSerialPath. rewrite Hopen, Hlist.
  rewrite !scan_ports_skip_prefix by exact Hpre.
  repeat split.
  - intros junk err Hr Hne.
    rewrite scan_ports_cons_passed_over; [reflexivity|].
    unfold passed_over. rewrite Hr. exact Hne.
  - intros junk err Hr Hne.
    rewrite (scan_ports_cons_fatal _ _ _ _ Hr Hne). reflexivity.
  - intros content Hr Hc.
    rewrite (scan_ports_cons_match _ _ _ Hr Hc). reflexivity.
Qed.

(** C7: the resolver fails with a gRPC not-found status exactly when the
    root was listed and every child was passed over; when the root
    cannot be opened, or cannot be listed, it fails with that error. *)
Theorem resolver_not_found_iff :
  ((exists err, snd (findVirtualSerialPath pkg w serialName) = Some err /\
                is_rpc_not_found err = true) <->
   (exists ports, root_listed pkg w ports /\
                  forallb (passed_over pkg w serialName) ports = true)) /\
  (forall e, sys_open w (virtIOPath pkg) = Failed e ->
             findVirtualSerialPath pkg w serialName
             = (EmptyString, Some (PathError "open" (virtIOPath pkg) (Errno e)))) /\
  (forall fd e, sys_open w (virtIOPath pkg) = Done fd ->
                sys_readdir w (virtIOPath pkg) = Failed e ->
                findVirtualSerialPath pkg w serialName
                = (EmptyString,
                   Some (PathError "readdirent" (virtIOPath pkg) (Errno e)))).
Proof.
  unfold findVirtualSerialPath, root_listed. repeat split.
  - intros [err [Hr Hnf]].
    destruct (sys_open w (virtIOPath pkg)) as [fd|e]; [|inversion Hr; subst; discriminate].
    destruct (sys_readdir w (virtIOPath pkg)) as [ports|e];
      [|inversion Hr; subst; discriminate].
    exists ports. split; [split; [exists fd|]; reflexivity|].
    apply scan_ports_None_iff.
    destruct (scan_ports pkg w serialName ports) as [[p [e|]]|] eqn:Hs;
      [|discriminate|reflexivity].
    simpl in Hr. inversion Hr; subst.
    rewrite (scan_ports_error_shape _ _ _ Hs) in Hnf. discriminate.
  - intros [ports [[[fd Hopen] Hlist] Hall]].
    rewrite Hopen, Hlist.
    apply scan_ports_None_iff in Hall. rewrite Hall.
    exists (not_found_error serialName). split; reflexivity.
  - intros e ->. reflexivity.
  - intros fd e -> ->. reflexivity.
Qed.
End ResolverProperties.

(** On the directory of the example, enumerated as [B], [C], [A], the
    resolver walks past [B] and answers with the path of [C]. *)
Lemma resolver_walk_witness :
  findVirtualSerialPath agent three_ports "foo" = ("/dev/C"%string, None).
Proof.
  destruct (resolver_walk agent three_ports "foo" ["B"%string] ["A"%string] "C")
    as (_ & _ & Hmatch).
  - split; [exists 3|]; reflexivity.
  - reflexivity.
  - apply (Hmatch "xxxfooyyy"%string); reflexivity.
Defined.

Example resolver_missing_child_alone :
  findVirtualSerialPath agent three_ports "bar"
  = (EmptyString, Some (not_found_error "bar")).
Proof. reflexivity. Qed.

Example resolver_fails_fast :
  findVirtualSerialPath agent three_ports_denied "foo"
  = (EmptyString,
     Some (PathError "open" "/sys/class/virtio-ports/B/name" (Errno EACCES))).
Proof. reflexivity. Qed.

Example resolver_root_missing :
  findVirtualSerialPath agent bare_world "foo"
  = (EmptyString,
     Some (PathError "open" "/sys/class/virtio-ports" (Errno ENOENT))).
Proof. reflexivity. Qed.

(* ================================================================== *)
(** * Discovery: properties *)
(* ================================================================== *)

Lemma sleeps_app (a b : list effect) : sleeps (a ++ b) = sleeps a ++ sleeps b.
Proof.
  induction a as [|x a IH]; [reflexivity|].
  destruct x; simpl; rewrite IH; reflexivity.
Qed.

Lemma sleeps_repeat (d : Z) (n : nat) :
  sleeps (repeat (Sleep d) n) = repeat d n.
Proof. induction n as [|n IH]; simpl; [|rewrite IH]; reflexivity. Qed.

Lemma logged_errors_app (a b : list effect) :
  logged_errors (a ++ b) = logged_errors a ++ logged_errors b.
Proof.
  induction a as [|x a IH]; [reflexivity|].
  destruct x; simpl; rewrite IH; reflexivity.
Qed.

Lemma logged_errors_repeat_sleep (d : Z) (n : nat) :
  logged_errors (repeat (Sleep d) n) = [].
Proof. induction n as [|n IH]; simpl; [reflexivity | exact IH]. Qed.

Lemma repeat_snoc {A : Type} (x : A) (n : nat) :
  x :: repeat x n = repeat x n ++ [x].
Proof. induction n as [|n IH]; simpl; [reflexivity | rewrite <- IH; reflexivity]. Qed.

Lemma blocked_repeat (d : Z) (n : nat) :
  fold_right (fun d acc => Z.max 0 d + acc) 0 (repeat d n)
  = Z.of_nat n * Z.max 0 d.
Proof.
  induction n as [|n IH]; [reflexivity|].
  cbn [repeat fold_right]. rewrite IH. lia.
Qed.

Section DiscoveryProperties.
Variable pkg : Package.

Lemma check_serial_cases (w : World) (l : locals) :
  check_serial pkg w l
  = if serial_usable pkg w
    then Return (Serial (new_serialChannel
                   (fst (findVirtualSerialPath pkg w (serialChannelName pkg)))))
                [SpanSetTag "channel-type" "serial";
                 SpanSetTag "serial-path"
                   (fst (findVirtualSerialPath pkg w (serialChannelName pkg)))]
    else Continue {| serialErr := snd (findVirtualSerialPath pkg w (serialChannelName pkg));
                     serialPath_var := fst (findVirtualSerialPath pkg w (serialChannelName pkg));
                     vsockErr := vsockErr l;
                     vSockSupported := vSockSupported l |}.
Proof.
  unfold check_serial, serial_usable.
  destruct (findVirtualSerialPath pkg w (serialChannelName pkg)) as [p [e|]];
    reflexivity.
Qed.

(** The serial branch never yields the socket variant. *)
Lemma check_serial_not_vsock (w : World) (l : locals) (c : vSockChannel)
      (tags : list effect) :
  check_serial pkg w l <> Return (VSock c) tags.
Proof.
  rewrite check_serial_cases. destruct (serial_usable pkg w); discriminate.
Qed.

Lemma loop_body_vsock (w : World) (l : locals) :
  vsock_usable pkg w = true ->
  loop_body pkg w l = Return (VSock mkVSock) [SpanSetTag "channel-type" "vsock"].
Proof.
  unfold vsock_usable, loop_body.
  destruct (os_Stat w (vSockDevPath pkg)); [discriminate|].
  destruct (isAFVSockSupportedFunc pkg w) as [s e]. simpl.
  intros ->. reflexivity.
Qed.

Lemma loop_body_serial (w : World) (l : locals) :
  vsock_usable pkg w = false ->
  serial_usable pkg w = true ->
  loop_body pkg w l
  = Return (Serial (new_serialChannel
              (fst (findVirtualSerialPath pkg w (serialChannelName pkg)))))
           [SpanSetTag "channel-type" "serial";
            SpanSetTag "serial-path"
              (fst (findVirtualSerialPath pkg w (serialChannelName pkg)))].
Proof.
  unfold vsock_usable, loop_body. intros Hv Hs.
  destruct (os_Stat w (vSockDevPath pkg)).
  - rewrite check_serial_cases, Hs. reflexivity.
  - destruct (isAFVSockSupportedFunc pkg w) as [s e]. simpl in Hv.
    rewrite Hv, check_serial_cases, Hs. reflexivity.
Qed.

Lemma loop_body_neither (w : World) (l : locals) :
  vsock_usable pkg w = false ->
  serial_usable pkg w = false ->
  loop_body pkg w l = Continue (observe pkg w l).
Proof.
  unfold vsock_usable, loop_body, observe. intros Hv Hs.
  destruct (os_Stat w (vSockDevPath pkg)).
  - rewrite check_serial_cases, Hs. reflexivity.
  - destruct (isAFVSockSupportedFunc pkg w) as [s e]. simpl in Hv.
    rewrite Hv, check_serial_cases, Hs. reflexivity.
Qed.

Lemma unavailable_S (env : nat -> World) (i n : nat) :
  unavailable pkg env i (S n) = true ->
  vsock_usable pkg (env i) = false /\ serial_usable pkg (env i) = false /\
  unavailable pkg env (S i) n = true.
Proof.
  cbn [unavailable]. rewrite !andb_true_iff, !negb_true_iff. tauto.
Qed.

Lemma unavailable_split (env : nat -> World) (i n m : nat) :
  unavailable pkg env i (n + m) = true ->
  unavailable pkg env i n = true /\ unavailable pkg env (i + n) m = true.
Proof.
  revert i. induction n as [|n IH]; intros i H.
  - rewrite Nat.add_0_r. split; [reflexivity | exact H].
  - apply unavailable_S in H. destruct H as (Hv & Hs & H).
    apply IH in H. destruct H as [H1 H2].
    split.
    + cbn [unavailable]. rewrite Hv, Hs, H1. reflexivity.
    + rewrite Nat.add_succ_r. exact H2.
Qed.

(** Passes that find nothing only sleep and update the locals. *)
Lemma discovery_loop_skip (env : nat -> World) (n todo i : nat) (l : locals)
      (tr : list effect) :
  unavailable pkg env i n = true ->
  discovery_loop pkg env (n + todo) i l tr
  = discovery_loop pkg env todo (i + n) (observe_all pkg env i n l)
                   (tr ++ repeat (Sleep (channelExistWaitTime pkg)) n).
Proof.
  revert i l tr. induction n as [|n IH]; intros i l tr H.
  - simpl. rewrite Nat.add_0_r, app_nil_r. reflexivity.
  - apply unavailable_S in H. destruct H as (Hv & Hs & H).
    cbn [Nat.add discovery_loop observe_all].
    rewrite (loop_body_neither _ _ Hv Hs), (IH _ _ _ H).
    rewrite Nat.add_succ_r, <- app_assoc. reflexivity.
Qed.

Lemma discovery_loop_exhausted (env : nat -> World) (n : nat) :
  unavailable pkg env 0 n = true ->
  discovery_loop pkg env n 0 locals_init [SpanStart "channel" "newChannel"]
  = exhausted (observe_all pkg env 0 n locals_init)
              (SpanStart "channel" "newChannel"
               :: repeat (Sleep (channelExistWaitTime pkg)) n).
Proof.
  intros H. rewrite <- (Nat.add_0_r n) at 1.
  rewrite (discovery_loop_skip _ _ _ _ _ _ H). reflexivity.
Qed.

Lemma observe_all_snoc (env : nat -> World) (n i : nat) (l : locals) :
  observe_all pkg env i (S n) l
  = observe pkg (env (i + n)%nat) (observe_all pkg env i n l).
Proof.
  revert i l. induction n as [|n IH]; intros i l.
  - simpl. rewrite Nat.add_0_r. reflexivity.
  - change (observe_all pkg env i (S (S n)) l)
      with (observe_all pkg env (S i) (S n) (observe pkg (env i) l)).
    rewrite IH. rewrite Nat.add_succ_r. reflexivity.
Qed.

(** The loop keeps the resolver's error of the last pass and the error of
    the most recent probe call. *)
Lemma observe_all_errors (env : nat -> World) (n : nat) :
  serialErr (observe_all pkg env 0 n locals_init) = last_serial_error pkg env n /\
  vsockErr (observe_all pkg env 0 n locals_init) = last_probe_error pkg env n.
Proof.
  induction n as [|n [IHs IHv]]; [split; reflexivity|].
  rewrite observe_all_snoc. cbn [Nat.add observe serialErr vsockErr
    last_serial_error last_probe_error].
  split; [reflexivity|].
  destruct (isnil (os_Stat (env n) (vSockDevPath pkg))); [reflexivity | exact IHv].
Qed.
End DiscoveryProperties.

(** The error [newChannel] ends with when it gives up. *)
Lemma newChannel_exhausted (pkg : Package) (env : nat -> World) :
  unavailable pkg env 0 (Z.to_nat (channelExistMaxTries pkg)) = true ->
  newChannel pkg env
  = exhausted
      (observe_all pkg env 0 (Z.to_nat (channelExistMaxTries pkg)) locals_init)
      (SpanStart "channel" "newChannel"
       :: repeat (Sleep (channelExistWaitTime pkg))
                 (Z.to_nat (channelExistMaxTries pkg))).
Proof. intros H. unfold newChannel. apply discovery_loop_exhausted, H. Qed.

Lemma sleeps_exhausted (l : locals) (tr : list effect) :
  sleeps (effects (exhausted l tr)) = sleeps tr.
Proof.
  unfold exhausted. cbn [effects]. rewrite !sleeps_app.
  destruct (serialErr l), (vsockErr l); simpl; rewrite app_nil_r; reflexivity.
Qed.

(** C2, as the code has it: when pass [j] is within the budget and no
    earlier pass found a usable transport, [newChannel] returns the
    socket variant in pass [j] if the socket transport is usable then,
    whether or not a serial device resolves in that pass; and it returns
    the serial variant in pass [j] if only the serial device resolves
    then.  A serial device found in an earlier pass is returned in that
    pass. *)
Theorem discovery_first_usable (pkg : Package) (env : nat -> World) (j : nat) :
  Z.of_nat j < channelExistMaxTries pkg ->
  unavailable pkg env 0 j = true ->
  (vsock_usable pkg (env j) = true ->
   newChannel pkg env
   = {| ret_channel := Some (VSock mkVSock);
        ret_err := None;
        effects := (SpanStart "channel" "newChannel"
                    :: repeat (Sleep (channelExistWaitTime pkg)) j)
                   ++ [SpanSetTag "channel-type" "vsock"] ++ [SpanFinish] |}) /\
  (vsock_usable pkg (env j) = false ->
   serial_usable pkg (env j) = true ->
   ret_channel (newChannel pkg env)
   = Some (Serial (new_serialChannel
         (fst (findVirtualSerialPath pkg (env j) (serialChannelName pkg))))) /\
   sleeps (effects (newChannel pkg env))
   = repeat (channelExistWaitTime pkg) j).
Proof.
  intros Hj Hun. unfold newChannel.
  replace (Z.to_nat (channelExistMaxTries pkg))
    with (j + S (Z.to_nat (channelExistMaxTries pkg) - S j))%nat by lia.
  rewrite (discovery_loop_skip _ _ _ _ _ _ _ Hun). cbn [Nat.add discovery_loop].
  split.
  - intros Hv. rewrite (loop_body_vsock _ _ _ Hv). reflexivity.
  - intros Hv Hs. rewrite (loop_body_serial _ _ _ Hv Hs). cbn [ret_channel effects].
    split; [reflexivity|].
    rewrite !sleeps_app, sleeps_repeat. simpl. rewrite app_nil_r. reflexivity.
Qed.

(** The socket transport appears in the second pass: it wins over the
    serial device that resolves in the same pass. *)
Lemma discovery_first_usable_witness :
  ret_channel (newChannel agent
                 (fun i => match i with O => bare_world | _ => vsock_world end))
  = Some (VSock mkVSock).
Proof.
  destruct (discovery_first_usable agent
              (fun i => match i with O => bare_world | _ => vsock_world end) 1)
    as [Hv _].
  - reflexivity.
  - reflexivity.
  - rewrite Hv; reflexivity.
Defined.

(** C2, as stated, fails: the socket device path is absent in the first
    pass and present, with a successful probe, in the second one; the
    serial device resolves in the first pass already, and [newChannel]
    returns the serial variant. *)
Lemma discovery_serial_found_first_wins :
  let env := fun i : nat => match i with O => serial_world | _ => vsock_world end in
  os_Stat (env 0%nat) (vSockDevPath agent) <> None /\
  vsock_usable agent (env 1%nat) = true /\
  serial_usable agent (env 0%nat) = true /\
  channelExistMaxTries agent = 200 /\
  ret_channel (newChannel agent env)
  = Some (Serial (new_serialChannel "/dev/vport0p1")) /\
  ret_channel (newChannel agent env) <> Some (VSock mkVSock).
Proof.
  cbv zeta. repeat split; try reflexivity; discriminate.
Qed.

(** C4, as the code has it: when every pass of the budget finds neither
    transport, [newChannel] returns no channel and the fixed error
    [Neither vsocks nor serial ports were found]; the resolver's error of
    the last pass and the error of the most recent probe call, when not
    nil, are written to the log, in this order. *)
Theorem discovery_not_found_logs (pkg : Package) (env : nat -> World) :
  unavailable pkg env 0 (Z.to_nat (channelExistMaxTries pkg)) = true ->
  ret_channel (newChannel pkg env) = None /\
  ret_err (newChannel pkg env)
  = Some (ErrorString "Neither vsocks nor serial ports were found") /\
  logged_errors (effects (newChannel pkg env))
  = not_found_log
      (last_serial_error pkg env (Z.to_nat (channelExistMaxTries pkg)))
      "Serial port not found"
    ++ not_found_log
         (last_probe_error pkg env (Z.to_nat (channelExistMaxTries pkg)))
         "VSock not found".
Proof.
  intros H. rewrite (newChannel_exhausted _ _ H).
  split; [reflexivity|]. split; [reflexivity|].
  destruct (observe_all_errors pkg env (Z.to_nat (channelExistMaxTries pkg)))
    as [Hs Hv].
  unfold exhausted. cbn [effects]. rewrite Hs, Hv.
  rewrite !logged_errors_app. cbn [logged_errors app].
  rewrite logged_errors_repeat_sleep. unfold not_found_log.
  destruct (last_serial_error _ _ _), (last_probe_error _ _ _); reflexivity.
Qed.

Lemma discovery_not_found_logs_witness :
  logged_errors (effects (newChannel (with_tries agent 2) (fun _ => starved_world)))
  = [(PathError "open" "/sys/class/virtio-ports" (Errno EACCES),
      "Serial port not found"%string);
     (Errno EMFILE, "VSock not found"%string)].
Proof.
  destruct (discovery_not_found_logs (with_tries agent 2) (fun _ => starved_world))
    as (_ & _ & Hlog).
  - reflexivity.
  - rewrite Hlog. reflexivity.
Defined.

(** C4, as stated, fails: after two passes in which the resolver fails
    with EACCES and the probe with EMFILE, the returned error is the
    fixed message and carries neither error; it is the very error
    returned when the causes are others. *)
Lemma discovery_error_carries_no_cause :
  let env := fun _ : nat => starved_world in
  let pkg := with_tries agent 2 in
  let serial_cause := PathError "open" "/sys/class/virtio-ports" (Errno EACCES) in
  let probe_cause := Errno EMFILE in
  unavailable pkg env 0 2 = true /\
  last_serial_error pkg env 2 = Some serial_cause /\
  last_probe_error pkg env 2 = Some probe_cause /\
  (exists err, ret_err (newChannel pkg env) = Some err /\
               error_carries err serial_cause = false /\
               error_carries err probe_cause = false) /\
  ret_err (newChannel pkg env) = ret_err (newChannel pkg (fun _ => bare_world)) /\
  last_serial_error pkg (fun _ => bare_world) 2 <> Some serial_cause.
Proof.
  cbv zeta. repeat split; try reflexivity.
  - eexists. repeat split; reflexivity.
  - discriminate.
Qed.

(** C5: for every budget [N] and interval [T], when neither transport is
    usable in any pass, [newChannel] returns the not-found error after
    at least [N - 1] sleeps, each of [T]; for [T >= 0] it has blocked for
    at least [(N - 1) * T]. *)
Theorem discovery_blocks_at_least (pkg : Package) (env : nat -> World) :
  unavailable pkg env 0 (Z.to_nat (channelExistMaxTries pkg)) = true ->
  ret_channel (newChannel pkg env) = None /\
  ret_err (newChannel pkg env)
  = Some (ErrorString "Neither vsocks nor serial ports were found") /\
  channelExistMaxTries pkg - 1
  <= Z.of_nat (length (sleeps (effects (newChannel pkg env)))) /\
  Forall (fun d => d = channelExistWaitTime pkg)
         (sleeps (effects (newChannel pkg env))) /\
  (0 <= channelExistWaitTime pkg ->
   (channelExistMaxTries pkg - 1) * channelExistWaitTime pkg
   <= blocked_time (effects (newChannel pkg env))).
Proof.
  intros H. rewrite (newChannel_exhausted _ _ H).
  split; [reflexivity|]. split; [reflexivity|].
  unfold blocked_time. rewrite sleeps_exhausted.
  cbn [sleeps]. rewrite sleeps_repeat, repeat_length.
  split; [lia|]. split.
  - apply Forall_forall. intros d Hd. apply repeat_spec in Hd. exact Hd.
  - intros HT. rewrite blocked_repeat. nia.
Qed.

Lemma discovery_blocks_at_least_witness :
  199 * (50 * Millisecond) <= blocked_time (effects (newChannel agent (fun _ => bare_world))).
Proof.
  destruct (discovery_blocks_at_least agent (fun _ => bare_world))
    as (_ & _ & _ & _ & Htime).
  - vm_compute. reflexivity.
  - apply Htime. vm_compute. discriminate.
Defined.

(** C10: with a budget [N >= 0] and an interval [T > 0], when neither
    transport is usable in any pass, [newChannel] sleeps after every
    pass, the last one included: the effects are the span start, [N]
    sleeps of [T], the log lines and the span end; the time blocked is
    [N * T], more than [(N - 1) * T]. *)
Theorem discovery_sleeps_after_every_pass (pkg : Package) (env : nat -> World) :
  0 <= channelExistMaxTries pkg ->
  0 < channelExistWaitTime pkg ->
  unavailable pkg env 0 (Z.to_nat (channelExistMaxTries pkg)) = true ->
  (exists logs,
      sleeps logs = [] /\
      effects (newChannel pkg env)
      = SpanStart "channel" "newChannel"
        :: repeat (Sleep (channelExistWaitTime pkg))
                  (Z.to_nat (channelExistMaxTries pkg))
        ++ logs ++ [SpanFinish]) /\
  Z.of_nat (length (sleeps (effects (newChannel pkg env))))
  = channelExistMaxTries pkg /\
  blocked_time (effects (newChannel pkg env))
  = channelExistMaxTries pkg * channelExistWaitTime pkg /\
  (channelExistMaxTries pkg - 1) * channelExistWaitTime pkg
  < blocked_time (effects (newChannel pkg env)).
Proof.
  intros HN HT H. rewrite (newChannel_exhausted _ _ H).
  unfold blocked_time. rewrite sleeps_exhausted.
  cbn [sleeps]. rewrite sleeps_repeat, repeat_length, blocked_repeat.
  split; [|repeat split; nia].
  unfold exhausted. cbn [effects].
  set (l := observe_all _ _ _ _ _).
  exists (match serialErr l with
          | Some e => [LogError e "Serial port not found"]
          | None => []
          end ++
          match vsockErr l with
          | Some e => [LogError e "VSock not found"]
          | None => []
          end).
  split.
  - destruct (serialErr l), (vsockErr l); reflexivity.
  - rewrite <- !app_assoc. reflexivity.
Qed.

Lemma discovery_sleeps_after_every_pass_witness :
  blocked_time (effects (newChannel agent (fun _ => bare_world)))
  = 200 * (50 * Millisecond).
Proof.
  destruct (discovery_sleeps_after_every_pass agent (fun _ => bare_world))
    as (_ & _ & Htime & _).
  - vm_compute. discriminate.
  - vm_compute. reflexivity.
  - vm_compute. reflexivity.
  - exact Htime.
Defined.

(** C9: in a pass where the socket device path exists and the probe
    answers [true] together with an error, the loop body does what the
    serial branch does and does not return the socket variant. *)
Theorem probe_error_falls_through (pkg : Package) (w : World) (l : locals)
        (e : error) :
  os_Stat w (vSockDevPath pkg) = None ->
  isAFVSockSupportedFunc pkg w = (true, Some e) ->
  loop_body pkg w l
  = check_serial pkg w {| serialErr := serialErr l;
                          serialPath_var := serialPath_var l;
                          vsockErr := Some e;
                          vSockSupported := true |} /\
  (forall c tags, loop_body pkg w l <> Return (VSock c) tags).
Proof.
  intros Hstat Hprobe.
  assert (loop_body pkg w l
          = check_serial pkg w {| serialErr := serialErr l;
                                  serialPath_var := serialPath_var l;
                                  vsockErr := Some e;
                                  vSockSupported := true |}) as Heq.
  { unfold loop_body. rewrite Hstat, Hprobe. reflexivity. }
  split; [exact Heq|].
  intros c tags. rewrite Heq. apply check_serial_not_vsock.
Qed.

(** The socket is created and its release fails with EIO: the pass
    returns the serial variant. *)
Lemma probe_error_falls_through_witness :
  isAFVSockSupported vsock_release_fails = (true, Some (Errno EIO)) /\
  loop_body agent vsock_release_fails locals_init
  = Return (Serial (new_serialChannel "/dev/vport0p1"))
           [SpanSetTag "channel-type" "serial";
            SpanSetTag "serial-path" "/dev/vport0p1"].
Proof.
  split; [reflexivity|].
  destruct (probe_error_falls_through agent vsock_release_fails locals_init
              (Errno EIO)) as [Heq _].
  - reflexivity.
  - reflexivity.
  - rewrite Heq. reflexivity.
Defined.

(* ================================================================== *)
(** * Serial variant: properties *)
(* ================================================================== *)

Example wait_interest_value : wait_interest = 0x80000004.
Proof. reflexivity. Qed.

Example hangup_is_quiet : flags_quiet EPOLLHUP = true.
Proof. reflexivity. Qed.

Section WaitProperties.
Variable fd : Z.

Lemma wait_loop_quiet (quiet : list Z) (rest : list (sysres (list EpollEvent))) :
  forallb flags_quiet quiet = true ->
  wait_loop fd (delivered fd quiet ++ rest) = wait_loop fd rest.
Proof.
  induction quiet as [|f quiet IH]; intros H; [reflexivity|].
  cbn [forallb] in H. apply andb_true_iff in H. destruct H as [Hf Hq].
  unfold flags_quiet in Hf. apply andb_true_iff in Hf. destruct Hf as [Hout Herr].
  cbn [delivered map app wait_loop handle_events Fd Events].
  rewrite Z.eqb_refl, Hout, Herr. cbn [negb].
  destruct (negb (Z.land f EPOLLHUP =? 0)); apply IH, Hq.
Qed.

(** Hangups alone leave the call blocked. *)
Lemma wait_loop_only_quiet (quiet : list Z) :
  forallb flags_quiet quiet = true ->
  wait_loop fd (delivered fd quiet) = Blocked.
Proof.
  intros H. rewrite <- (app_nil_r (delivered fd quiet)).
  rewrite wait_loop_quiet by exact H. reflexivity.
Qed.

Lemma wait_loop_writable (f : Z) (rest : list (sysres (list EpollEvent))) :
  Z.land f EPOLLOUT <> 0 ->
  wait_loop fd (delivered fd [f] ++ rest) = Returned None.
Proof.
  intros H. cbn [delivered map app wait_loop handle_events Fd Events].
  rewrite Z.eqb_refl. apply Z.eqb_neq in H. rewrite H. reflexivity.
Qed.

Lemma wait_loop_error (f : Z) (rest : list (sysres (list EpollEvent))) :
  Z.land f EPOLLOUT = 0 ->
  Z.land f EPOLLERR <> 0 ->
  wait_loop fd (delivered fd [f] ++ rest)
  = Returned (Some (ErrorString "serial port IO failure")).
Proof.
  intros Hout Herr. cbn [delivered map app wait_loop handle_events Fd Events].
  rewrite Z.eqb_refl, Hout. apply Z.eqb_neq in Herr. rewrite Herr. reflexivity.
Qed.
End WaitProperties.

Lemma delivered_app (fd : Z) (a b : list Z) :
  delivered fd (a ++ b) = delivered fd a ++ delivered fd b.
Proof. apply map_app. Qed.

(** C3, as the code has it: on an open descriptor with a working epoll
    instance, after events that carry neither the writable nor the error
    flag (hangups alone are such events), an event with the writable
    flag makes [wait] return nil, and an event with the error flag and
    without the writable flag makes it fail with [serial port IO
    failure]. *)
Theorem serial_wait_decides (k : Epoll) (c : serialChannel) (epfd : Z)
        (quiet : list Z) (f : Z) (rest : list (sysres (list EpollEvent))) :
  File_Fd (serialConn c) <> 0 ->
  epoll_create1 k EPOLL_CLOEXEC = Done epfd ->
  epoll_ctl k epfd EPOLL_CTL_ADD (File_Fd (serialConn c))
            (Some {| Events := wait_interest;
                     Fd := int32 (File_Fd (serialConn c)) |}) = None ->
  forallb flags_quiet quiet = true ->
  epoll_wait k = delivered (File_Fd (serialConn c)) (quiet ++ [f]) ++ rest ->
  (Z.land f EPOLLOUT <> 0 -> serial_wait k c = Returned None) /\
  (Z.land f EPOLLOUT = 0 -> Z.land f EPOLLERR <> 0 ->
   serial_wait k c = Returned (Some (ErrorString "serial port IO failure"))).
Proof.
  intros Hfd Hcreate Hctl Hquiet Hwait.
  unfold serial_wait. apply Z.eqb_neq in Hfd.
  rewrite Hfd, Hcreate, Hctl, Hwait, delivered_app, <- app_assoc.
  rewrite wait_loop_quiet by exact Hquiet.
  split.
  - apply wait_loop_writable.
  - apply wait_loop_error.
Qed.

(** Two hangups, then the line becomes writable. *)
Lemma serial_wait_decides_witness :
  serial_wait (epoll_with (delivered 5 [EPOLLHUP; EPOLLHUP; EPOLLOUT]))
              (opened "/dev/vport0p1" 5)
  = Returned None.
Proof.
  destruct (serial_wait_decides
              (epoll_with (delivered 5 [EPOLLHUP; EPOLLHUP; EPOLLOUT]))
              (opened "/dev/vport0p1" 5) 9 [EPOLLHUP; EPOLLHUP] EPOLLOUT [])
    as [Hok _].
  - discriminate.
  - reflexivity.
  - reflexivity.
  - reflexivity.
  - reflexivity.
  - apply Hok. discriminate.
Defined.

Example serial_wait_error_after_hangup :
  serial_wait (epoll_with (delivered 5 [EPOLLHUP; Z.lor EPOLLERR EPOLLHUP]))
              (opened "/dev/vport0p1" 5)
  = Returned (Some (ErrorString "serial port IO failure")).
Proof. reflexivity. Qed.

Example serial_wait_closed_descriptor :
  serial_wait (epoll_with []) (opened "/dev/vport0p1" 0)
  = Returned (Some (ErrorString "serial port IO closed")).
Proof. reflexivity. Qed.

(** C3, as stated, fails: an event that carries the error flag together
    with the writable flag arrives after a hangup, and [wait] returns
    nil. *)
Lemma serial_wait_writable_checked_first :
  let flags := Z.lor EPOLLOUT EPOLLERR in
  Z.land flags EPOLLERR <> 0 /\
  serial_wait (epoll_with (delivered 5 [EPOLLHUP; flags]))
              (opened "/dev/vport0p1" 5)
  = Returned None.
Proof. cbv zeta. split; [discriminate | reflexivity]. Qed.

(** ** Teardown *)

Lemma select_close_never (timeout : Z) (tie : bool) :
  select_close timeout None tie = TimedOut (Z.max 0 timeout).
Proof. reflexivity. Qed.

Lemma select_close_early (timeout t : Z) (tie : bool) :
  0 <= t < timeout ->
  select_close timeout (Some t) tie = Notified t.
Proof.
  intros H. unfold select_close.
  rewrite (Z.max_r 0 t), (Z.max_r 0 timeout) by lia.
  destruct (Z.ltb_spec t timeout); [reflexivity | lia].
Qed.

(** When the session closes before the deadline, or when there is no
    session, [teardown] closes the open descriptor, once. *)
Lemma teardown_closes_once (pkg : Package) (w : World) (tie : bool)
      (path : string) (fd t : Z) :
  0 <= t < channelCloseTimeout pkg ->
  td_closed (serial_teardown pkg w tie (serving path fd (Some t))) = [fd] /\
  conn_closed (td_chan (serial_teardown pkg w tie (serving path fd (Some t)))) = true /\
  td_closed (serial_teardown pkg w tie (opened path fd)) = [fd] /\
  conn_closed (td_chan (serial_teardown pkg w tie (opened path fd))) = true.
Proof.
  intros H. unfold serial_teardown. cbn [serving opened waitCh].
  rewrite (select_close_early _ _ _ H).
  repeat split; reflexivity.
Qed.

(** C1, on the code: when the session never closes, [teardown] returns
    the timeout error at the deadline, hands no descriptor to [close] and
    leaves the channel, with its open descriptor, as it was. *)
Theorem teardown_timeout_skips_close (pkg : Package) (w : World) (tie : bool)
        (path : string) (fd : Z) :
  td_err (serial_teardown pkg w tie (serving path fd None))
  = Some (ErrorString "timeout waiting for yamux channel to close") /\
  td_elapsed (serial_teardown pkg w tie (serving path fd None))
  = Z.max 0 (channelCloseTimeout pkg) /\
  td_closed (serial_teardown pkg w tie (serving path fd None)) = [] /\
  td_chan (serial_teardown pkg w tie (serving path fd None))
  = serving path fd None /\
  conn_closed (td_chan (serial_teardown pkg w tie (serving path fd None))) = false.
Proof. repeat split; reflexivity. Qed.

Example teardown_timeout_at_five_seconds :
  serial_teardown agent serial_world true (serving "/dev/vport0p1" 5 None)
  = {| td_err := Some (ErrorString "timeout waiting for yamux channel to close");
       td_chan := serving "/dev/vport0p1" 5 None;
       td_elapsed := 5000000000;
       td_closed := [] |}.
Proof. reflexivity. Qed.

(* ================================================================== *)
(** * Discovery: what every run does *)
(* ================================================================== *)

Section DiscoveryRuns.
Variable pkg : Package.

(** The three ways through the loop body. *)
Lemma loop_body_cases (w : World) (l : locals) :
  (vsock_usable pkg w = true /\
   loop_body pkg w l
   = Return (VSock mkVSock) [SpanSetTag "channel-type" "vsock"]) \/
  (vsock_usable pkg w = false /\ serial_usable pkg w = true /\
   loop_body pkg w l
   = Return (Serial (new_serialChannel
               (fst (findVirtualSerialPath pkg w (serialChannelName pkg)))))
            [SpanSetTag "channel-type" "serial";
             SpanSetTag "serial-path"
               (fst (findVirtualSerialPath pkg w (serialChannelName pkg)))]) \/
  (vsock_usable pkg w = false /\ serial_usable pkg w = false /\
   loop_body pkg w l = Continue (observe pkg w l)).
Proof.
  destruct (vsock_usable pkg w) eqn:Hv.
  - left. split; [reflexivity | apply loop_body_vsock, Hv].
  - right. destruct (serial_usable pkg w) eqn:Hs.
    + left. repeat split. apply loop_body_serial; assumption.
    + right. repeat split. apply loop_body_neither; assumption.
Qed.

Lemma discovery_loop_one_of (env : nat -> World) (todo i : nat) (l : locals)
      (tr : list effect) :
  (exists ch, ret_channel (discovery_loop pkg env todo i l tr) = Some ch /\
              ret_err (discovery_loop pkg env todo i l tr) = None) \/
  (ret_channel (discovery_loop pkg env todo i l tr) = None /\
   ret_err (discovery_loop pkg env todo i l tr)
   = Some (ErrorString "Neither vsocks nor serial ports were found")).
Proof.
  revert i l tr. induction todo as [|todo IH]; intros i l tr.
  - right. split; reflexivity.
  - cbn [discovery_loop].
    destruct (loop_body_cases (env i) l) as [[_ E] | [(_ & _ & E) | (_ & _ & E)]];
      rewrite E.
    + left. eexists. split; reflexivity.
    + left. eexists. split; reflexivity.
    + apply IH.
Qed.

Lemma discovery_loop_gives_up_iff (env : nat -> World) (todo i : nat)
      (l : locals) (tr : list effect) :
  ret_channel (discovery_loop pkg env todo i l tr) = None <->
  unavailable pkg env i todo = true.
Proof.
  revert i l tr. induction todo as [|todo IH]; intros i l tr.
  - split; reflexivity.
  - cbn [discovery_loop unavailable].
    destruct (loop_body_cases (env i) l)
      as [[Hv E] | [(Hv & Hs & E) | (Hv & Hs & E)]]; rewrite E.
    + rewrite Hv. split; discriminate.
    + rewrite Hv, Hs. split; discriminate.
    + rewrite Hv, Hs. cbn [negb andb]. apply IH.
Qed.

(** Where a returned channel comes from. *)
Lemma discovery_loop_origin (env : nat -> World) (todo i : nat) (l : locals)
      (tr : list effect) (ch : channel) :
  ret_channel (discovery_loop pkg env todo i l tr) = Some ch ->
  exists k, (k < todo)%nat /\
    unavailable pkg env i k = true /\
    ((vsock_usable pkg (env (i + k)%nat) = true /\ ch = VSock mkVSock) \/
     (vsock_usable pkg (env (i + k)%nat) = false /\
      serial_usable pkg (env (i + k)%nat) = true /\
      ch = Serial (new_serialChannel
             (fst (findVirtualSerialPath pkg (env (i + k)%nat)
                     (serialChannelName pkg)))))).
Proof.
  revert i l tr. induction todo as [|todo IH]; intros i l tr; [discriminate|].
  cbn [discovery_loop].
  destruct (loop_body_cases (env i) l)
    as [[Hv E] | [(Hv & Hs & E) | (Hv & Hs & E)]]; rewrite E.
  - cbn [ret_channel]. intros H. inversion H; subst.
    exists 0%nat. rewrite Nat.add_0_r.
    split; [lia|]. split; [reflexivity|]. left. split; [exact Hv | reflexivity].
  - cbn [ret_channel]. intros H. inversion H; subst.
    exists 0%nat. rewrite Nat.add_0_r.
    split; [lia|]. split; [reflexivity|]. right. repeat split; assumption.
  - intros H. apply IH in H. destruct H as (k & Hk & Hun & Hcase).
    exists (S k). split; [lia|]. split.
    + cbn [unavailable]. rewrite Hv, Hs, Hun. reflexivity.
    + rewrite Nat.add_succ_r. exact Hcase.
Qed.


Lemma span_marks_app (a b : list effect) :
  span_marks (a ++ b) = span_marks a ++ span_marks b.
Proof.
  induction a as [|x a IH]; [reflexivity|].
  destruct x; simpl; rewrite IH; reflexivity.
Qed.

Lemma span_tags_app (a b : list effect) :
  span_tags (a ++ b) = span_tags a ++ span_tags b.
Proof.
  induction a as [|x a IH]; [reflexivity|].
  destruct x; simpl; rewrite IH; reflexivity.
Qed.

Lemma discovery_loop_span (env : nat -> World) (todo i : nat) (l : locals)
      (tr : list effect) :
  span_marks (effects (discovery_loop pkg env todo i l tr))
  = span_marks tr ++ [SpanFinish] /\
  span_tags (effects (discovery_loop pkg env todo i l tr))
  = span_tags tr
    ++ transport_tags (ret_channel (discovery_loop pkg env todo i l tr)) /\
  exists before, effects (discovery_loop pkg env todo i l tr)
                 = before ++ [SpanFinish].
Proof.
  revert i l tr. induction todo as [|todo IH]; intros i l tr.
  - cbn [discovery_loop]. unfold exhausted. cbn [effects ret_channel].
    split; [|split].
    + rewrite !span_marks_app.
      destruct (serialErr l), (vsockErr l); simpl; reflexivity.
    + rewrite !span_tags_app.
      destruct (serialErr l), (vsockErr l); simpl; rewrite app_nil_r; reflexivity.
    + eexists. rewrite !app_assoc. reflexivity.
  - cbn [discovery_loop].
    destruct (loop_body_cases (env i) l) as [[_ E] | [(_ & _ & E) | (_ & _ & E)]];
      rewrite E.
    + cbn [effects ret_channel]. split; [|split].
      * rewrite !span_marks_app. reflexivity.
      * rewrite !span_tags_app. reflexivity.
      * eexists. rewrite app_assoc. reflexivity.
    + cbn [effects ret_channel]. split; [|split].
      * rewrite !span_marks_app. reflexivity.
      * rewrite !span_tags_app. reflexivity.
      * eexists. rewrite app_assoc. reflexivity.
    + destruct (IH (S i) (observe pkg (env i) l)
                   (tr ++ [Sleep (channelExistWaitTime pkg)]))
        as (Hm & Ht & Hlast).
      rewrite Hm, Ht, span_marks_app, span_tags_app. simpl.
      rewrite !app_nil_r. repeat split. exact Hlast.
Qed.

(** A run that returned a channel is not changed by a larger budget. *)
Lemma discovery_loop_more_budget (env : nat -> World) (todo more i : nat)
      (l : locals) (tr : list effect) :
  ret_channel (discovery_loop pkg env todo i l tr) <> None ->
  discovery_loop pkg env (todo + more) i l tr
  = discovery_loop pkg env todo i l tr.
Proof.
  revert i l tr. induction todo as [|todo IH]; intros i l tr H.
  - exfalso. apply H. reflexivity.
  - revert H. cbn [Nat.add discovery_loop].
    destruct (loop_body pkg (env i) l); [reflexivity|]. apply IH.
Qed.
End DiscoveryRuns.

(** ** Packages that name the same devices *)

Lemma scan_ports_same_paths (pkg pkg' : Package) (w : World)
      (serialName : string) (ports : list string) :
  same_paths pkg pkg' ->
  scan_ports pkg w serialName ports = scan_ports pkg' w serialName ports.
Proof.
  intros (_ & Hv & Hd & _).
  induction ports as [|port ports IH]; [reflexivity|].
  cbn [scan_ports]. rewrite Hv, Hd, IH. reflexivity.
Qed.

Lemma findVirtualSerialPath_same_paths (pkg pkg' : Package) (w : World)
      (serialName : string) :
  same_paths pkg pkg' ->
  findVirtualSerialPath pkg w serialName = findVirtualSerialPath pkg' w serialName.
Proof.
  intros H. unfold findVirtualSerialPath.
  assert (virtIOPath pkg = virtIOPath pkg') as Hv by apply H.
  rewrite <- Hv.
  destruct (sys_open w (virtIOPath pkg)); [|reflexivity].
  destruct (sys_readdir w (virtIOPath pkg)) as [ports|e]; [|reflexivity].
  rewrite (scan_ports_same_paths pkg pkg') by exact H. reflexivity.
Qed.

Lemma check_serial_same_paths (pkg pkg' : Package) (w : World) (l : locals) :
  same_paths pkg pkg' ->
  check_serial pkg w l = check_serial pkg' w l.
Proof.
  intros H. unfold check_serial.
  rewrite (findVirtualSerialPath_same_paths pkg pkg') by exact H.
  destruct H as (_ & _ & _ & Hn). rewrite Hn. reflexivity.
Qed.

(** The probe matters only where the socket device path exists. *)
Lemma loop_body_same_paths (pkg pkg' : Package) (w : World) (l : locals) :
  same_paths pkg pkg' ->
  (os_Stat w (vSockDevPath pkg) = None ->
   isAFVSockSupportedFunc pkg w = isAFVSockSupportedFunc pkg' w) ->
  loop_body pkg w l = loop_body pkg' w l.
Proof.
  intros H Hprobe. unfold loop_body.
  assert (vSockDevPath pkg = vSockDevPath pkg') as Hp by apply H.
  rewrite <- Hp.
  destruct (os_Stat w (vSockDevPath pkg)).
  - apply check_serial_same_paths, H.
  - rewrite <- Hprobe by reflexivity.
    destruct (isAFVSockSupportedFunc pkg w) as [s e].
    rewrite (check_serial_same_paths pkg pkg') by exact H. reflexivity.
Qed.

Lemma discovery_loop_same_paths (pkg pkg' : Package) (env : nat -> World)
      (todo i : nat) (l : locals) (tr : list effect) :
  same_paths pkg pkg' ->
  channelExistWaitTime pkg = channelExistWaitTime pkg' ->
  (forall k, (k < todo)%nat ->
             os_Stat (env (i + k)%nat) (vSockDevPath pkg) = None ->
             isAFVSockSupportedFunc pkg (env (i + k)%nat)
             = isAFVSockSupportedFunc pkg' (env (i + k)%nat)) ->
  discovery_loop pkg env todo i l tr = discovery_loop pkg' env todo i l tr.
Proof.
  intros H HT. revert i l tr.
  induction todo as [|todo IH]; intros i l tr Hprobe; [reflexivity|].
  cbn [discovery_loop].
  rewrite (loop_body_same_paths pkg pkg') by
    (try exact H; rewrite <- (Nat.add_0_r i); apply Hprobe; lia).
  destruct (loop_body pkg' (env i) l); [reflexivity|].
  rewrite HT. apply IH.
  intros k Hk. rewrite Nat.add_succ_l, <- Nat.add_succ_r. apply Hprobe. lia.
Qed.

Lemma same_paths_with_tries (pkg : Package) (n : Z) :
  same_paths (with_tries pkg n) pkg.
Proof. repeat split. Qed.

Lemma same_paths_with_probe (pkg : Package) (f g : World -> bool * option error) :
  same_paths (with_probe pkg f) (with_probe pkg g).
Proof. repeat split. Qed.

(* ================================================================== *)
(** * Discovery: further properties *)
(* ================================================================== *)

(** X1: [newChannel] returns either a channel and no error, or no channel
    and the not-found error; never both, never neither. *)
Theorem newChannel_channel_or_error (pkg : Package) (env : nat -> World) :
  (exists ch, ret_channel (newChannel pkg env) = Some ch /\
              ret_err (newChannel pkg env) = None) \/
  (ret_channel (newChannel pkg env) = None /\
   ret_err (newChannel pkg env)
   = Some (ErrorString "Neither vsocks nor serial ports were found")).
Proof. apply discovery_loop_one_of. Qed.

(** X2: [newChannel] returns an error exactly when, in every pass of the
    budget, the socket transport is not usable and the serial device
    does not resolve. *)
Theorem newChannel_error_iff (pkg : Package) (env : nat -> World) :
  ret_err (newChannel pkg env) <> None <->
  unavailable pkg env 0 (Z.to_nat (channelExistMaxTries pkg)) = true.
Proof.
  unfold newChannel. rewrite <- discovery_loop_gives_up_iff.
  destruct (discovery_loop_one_of pkg env (Z.to_nat (channelExistMaxTries pkg)) 0
              locals_init [SpanStart "channel" "newChannel"])
    as [(ch & Hc & He) | (Hc & He)]; rewrite Hc, He.
  - split; [intros H; exfalso; apply H; reflexivity | discriminate].
  - split; [reflexivity | discriminate].
Qed.

(** X3: a returned channel comes from the first pass [j] of the budget in
    which a transport is usable: the socket variant when the socket
    transport is usable in that pass, else a fresh serial channel (no
    open file, no session) on the path the resolver returned in that
    pass. *)
Theorem newChannel_origin (pkg : Package) (env : nat -> World) (ch : channel) :
  ret_channel (newChannel pkg env) = Some ch ->
  exists j, Z.of_nat j < channelExistMaxTries pkg /\
    unavailable pkg env 0 j = true /\
    ((vsock_usable pkg (env j) = true /\ ch = VSock mkVSock) \/
     (vsock_usable pkg (env j) = false /\
      exists path,
        findVirtualSerialPath pkg (env j) (serialChannelName pkg) = (path, None) /\
        ch = Serial {| serialPath := path; serialConn := None; waitCh := None |})).
Proof.
  intros H. apply discovery_loop_origin in H.
  destruct H as (k & Hk & Hun & Hcase). exists k.
  split; [lia|]. split; [exact Hun|]. cbn [Nat.add] in Hcase.
  destruct Hcase as [Hv | (Hv & Hs & Hch)]; [left; exact Hv | right].
  split; [exact Hv|].
  unfold serial_usable in Hs.
  destruct (findVirtualSerialPath pkg (env k) (serialChannelName pkg))
    as [p [e|]]; [discriminate|].
  exists p. split; [reflexivity | exact Hch].
Qed.

Lemma newChannel_origin_witness :
  exists j, Z.of_nat j < 200 /\
    unavailable agent (fun i => match i with O => bare_world | _ => serial_world end)
                0 j = true /\
    ((vsock_usable agent (match j with O => bare_world | _ => serial_world end) = true /\
      Serial (new_serialChannel "/dev/vport0p1") = VSock mkVSock) \/
     (vsock_usable agent (match j with O => bare_world | _ => serial_world end) = false /\
      exists path,
        findVirtualSerialPath agent (match j with O => bare_world | _ => serial_world end)
                              "agent.channel.0" = (path, None) /\
        Serial (new_serialChannel "/dev/vport0p1")
        = Serial {| serialPath := path; serialConn := None; waitCh := None |})).
Proof.
  apply (newChannel_origin agent
           (fun i => match i with O => bare_world | _ => serial_world end)
           (Serial (new_serialChannel "/dev/vport0p1"))).
  reflexivity.
Defined.


(** X5: with a budget that is not positive the loop body never runs:
    [newChannel] returns the not-found error at once, without a sleep
    and without a log line. *)
Theorem newChannel_no_budget (pkg : Package) (env : nat -> World) :
  channelExistMaxTries pkg <= 0 ->
  newChannel pkg env
  = {| ret_channel := None;
       ret_err := Some (ErrorString "Neither vsocks nor serial ports were found");
       effects := [SpanStart "channel" "newChannel"; SpanFinish] |}.
Proof.
  intros H. unfold newChannel.
  replace (Z.to_nat (channelExistMaxTries pkg)) with 0%nat by lia.
  reflexivity.
Qed.

Lemma newChannel_no_budget_witness :
  ret_channel (newChannel (with_tries agent (-3)) (fun _ => vsock_world)) = None.
Proof.
  rewrite (newChannel_no_budget (with_tries agent (-3)) (fun _ => vsock_world)).
  - reflexivity.
  - vm_compute. discriminate.
Defined.

(** X6: on every path the span is started once and finished once, the
    finish being the last effect, and its tags are those of the returned
    channel: the transport kind, and for the serial variant the device
    path; no tag when discovery fails. *)
Theorem newChannel_span (pkg : Package) (env : nat -> World) :
  span_marks (effects (newChannel pkg env))
  = [SpanStart "channel" "newChannel"; SpanFinish] /\
  span_tags (effects (newChannel pkg env))
  = transport_tags (ret_channel (newChannel pkg env)) /\
  exists before, effects (newChannel pkg env) = before ++ [SpanFinish].
Proof. apply discovery_loop_span. Qed.

(** X7: a discovery that returned a channel returns the same channel,
    with the same effects, under any larger budget. *)
Theorem newChannel_budget_monotone (pkg : Package) (env : nat -> World) (n : Z) :
  ret_channel (newChannel pkg env) <> None ->
  channelExistMaxTries pkg <= n ->
  newChannel (with_tries pkg n) env = newChannel pkg env.
Proof.
  intros Hch Hn. unfold newChannel in *. cbn [with_tries channelExistMaxTries].
  rewrite (discovery_loop_same_paths (with_tries pkg n) pkg);
    [|apply same_paths_with_tries | reflexivity | reflexivity].
  replace (Z.to_nat n)
    with (Z.to_nat (channelExistMaxTries pkg)
          + (Z.to_nat n - Z.to_nat (channelExistMaxTries pkg)))%nat by lia.
  apply discovery_loop_more_budget, Hch.
Qed.

Lemma newChannel_budget_monotone_witness :
  newChannel (with_tries (with_tries agent 2) 200)
             (fun i => match i with O => bare_world | _ => serial_world end)
  = newChannel (with_tries agent 2)
               (fun i => match i with O => bare_world | _ => serial_world end).
Proof.
  apply (newChannel_budget_monotone (with_tries agent 2)).
  - vm_compute. discriminate.
  - vm_compute. discriminate.
Defined.

(** X8: while the socket device path does not exist in any pass of the
    budget, the outcome does not depend on the capability probe. *)
Theorem newChannel_probe_unused (pkg : Package) (env : nat -> World)
        (f g : World -> bool * option error) :
  (forall i, (i < Z.to_nat (channelExistMaxTries pkg))%nat ->
             os_Stat (env i) (vSockDevPath pkg) <> None) ->
  newChannel (with_probe pkg f) env = newChannel (with_probe pkg g) env.
Proof.
  intros Habsent. unfold newChannel. cbn [with_probe channelExistMaxTries].
  apply discovery_loop_same_paths;
    [apply same_paths_with_probe | reflexivity |].
  intros k Hk Hstat. exfalso. apply (Habsent k Hk). exact Hstat.
Qed.

Lemma newChannel_probe_unused_witness :
  newChannel (with_probe agent isAFVSockSupported) (fun _ => serial_world)
  = newChannel (with_probe agent (fun _ => (true, None))) (fun _ => serial_world).
Proof.
  apply (newChannel_probe_unused agent (fun _ => serial_world)).
  intros i _. discriminate.
Defined.



(* ================================================================== *)
(** * Device-path resolver: further properties *)
(* ================================================================== *)

Lemma strings_Contains_empty (s : string) : strings_Contains s "" = true.
Proof. destruct s; reflexivity. Qed.

Lemma split_path_no_slash (s : string) :
  no_slash s = true -> split_path s = [s].
Proof.
  induction s as [|c s IH]; [reflexivity|].
  cbn [no_slash split_path]. intros H.
  apply andb_true_iff in H. destruct H as [Hc Hs].
  apply negb_true_iff in Hc. rewrite Hc, (IH Hs). reflexivity.
Qed.

Lemma split_path_append (a b : string) :
  no_slash a = true ->
  split_path (String.append a (String slash b)) = a :: split_path b.
Proof.
  induction a as [|c a IH]; intros H.
  - reflexivity.
  - cbn [no_slash] in H. apply andb_true_iff in H. destruct H as [Hc Ha].
    apply negb_true_iff in Hc.
    cbn [String.append split_path]. rewrite Hc, (IH Ha). reflexivity.
Qed.

Lemma plain_name_inv (s : string) :
  plain_name s = true ->
  no_slash s = true /\ String.eqb s "" = false /\
  String.eqb s "." = false /\ String.eqb s ".." = false.
Proof.
  unfold plain_name. rewrite !andb_true_iff, !negb_true_iff. tauto.
Qed.

(** Joining an entry name to a root of one component. *)
Lemma filepath_Join_root_child (r port : string) :
  plain_name r = true ->
  plain_name port = true ->
  filepath_Join [String slash r; port]
  = String slash (String.append r (String slash port)).
Proof.
  intros Hr Hp.
  apply plain_name_inv in Hr. destruct Hr as (Hr1 & Hr2 & Hr3 & Hr4).
  apply plain_name_inv in Hp. destruct Hp as (Hp1 & Hp2 & Hp3 & Hp4).
  cbn [filepath_Join String.eqb join_slash String.append filepath_Clean].
  change (Ascii.eqb slash slash) with true.
  cbn [split_path]. change (Ascii.eqb slash slash) with true. cbv iota.
  rewrite (split_path_append _ _ Hr1), (split_path_no_slash _ Hp1).
  cbn [clean_components String.eqb orb].
  rewrite Hr2, Hr3, Hr4, Hp2, Hp3, Hp4. cbn [orb rev app join_slash].
  reflexivity.
Qed.

Section ResolverFurther.
Variable pkg : Package.
Variable w : World.
Variable serialName : string.

Lemma scan_ports_success (ports : list string) (p : string) :
  scan_ports pkg w serialName ports = Some (p, None) ->
  exists pre port post content,
    ports = pre ++ port :: post /\
    forallb (passed_over pkg w serialName) pre = true /\
    ioutil_ReadFile w (name_file pkg port) = (content, None) /\
    strings_Contains content serialName = true /\
    p = filepath_Join [devRootPath pkg; port].
Proof.
  induction ports as [|q ports IH]; [discriminate|].
  destruct (passed_over pkg w serialName q) eqn:Hq.
  - rewrite scan_ports_cons_passed_over by exact Hq. intros H.
    apply IH in H. destruct H as (pre & port & post & content & -> & Hpre & Hr & Hc & ->).
    exists (q :: pre), port, post, content.
    repeat split; try assumption.
    cbn [forallb]. rewrite Hq, Hpre. reflexivity.
  - unfold passed_over in Hq. cbn [scan_ports]. fold (name_file pkg q).
    destruct (ioutil_ReadFile w (name_file pkg q)) as [content [err|]] eqn:Hr.
    + rewrite Hq. discriminate.
    + apply negb_false_iff in Hq. rewrite Hq. intros H. inversion H; subst.
      exists [], q, ports, content. repeat split; assumption.
Qed.

Lemma scan_ports_error_no_path (ports : list string) (p : string) (e : error) :
  scan_ports pkg w serialName ports = Some (p, Some e) -> p = EmptyString.
Proof.
  induction ports as [|q ports IH]; [discriminate|].
  cbn [scan_ports].
  destruct (ioutil_ReadFile w _) as [content [err|]].
  - destruct (os_IsNotExist err); [exact IH|]. intros H. inversion H. reflexivity.
  - destruct (strings_Contains content serialName); [discriminate | exact IH].
Qed.

(** X10: a path returned without error is the join of the device root
    and the first listed child that is not walked past, and the name file
    of that child has the name as a substring. *)
Theorem resolver_sound (p : string) :
  findVirtualSerialPath pkg w serialName = (p, None) ->
  exists pre port post content a b,
    root_listed pkg w (pre ++ port :: post) /\
    forallb (passed_over pkg w serialName) pre = true /\
    ioutil_ReadFile w (name_file pkg port) = (content, None) /\
    content = String.append a (String.append serialName b) /\
    p = filepath_Join [devRootPath pkg; port].
Proof.
  unfold findVirtualSerialPath, root_listed.
  destruct (sys_open w (virtIOPath pkg)) as [fd|e]; [|discriminate].
  destruct (sys_readdir w (virtIOPath pkg)) as [ports|e]; [|discriminate].
  destruct (scan_ports pkg w serialName ports) as [[q [e|]]|] eqn:Hs;
    try discriminate.
  intros H. inversion H; subst.
  apply scan_ports_success in Hs.
  destruct Hs as (pre & port & post & content & -> & Hpre & Hr & Hc & ->).
  apply strings_Contains_spec in Hc. destruct Hc as (a & b & Hc).
  exists pre, port, post, content, a, b.
  repeat split; try assumption. exists fd. reflexivity.
Qed.

(** X11: a failing resolver returns the empty path: never a path
    together with an error. *)
Theorem resolver_error_no_path (e : error) :
  snd (findVirtualSerialPath pkg w serialName) = Some e ->
  fst (findVirtualSerialPath pkg w serialName) = EmptyString.
Proof.
  unfold findVirtualSerialPath.
  destruct (sys_open w (virtIOPath pkg)) as [fd|e']; [|reflexivity].
  destruct (sys_readdir w (virtIOPath pkg)) as [ports|e']; [|reflexivity].
  destruct (scan_ports pkg w serialName ports) as [[q [e'|]]|] eqn:Hs.
  - intros _. apply scan_ports_error_no_path in Hs. exact Hs.
  - discriminate.
  - reflexivity.
Qed.

(** X13: with a device root of one component and a child that is a plain
    entry name, the path returned for that child is the root, a
    separator and the name. *)
Theorem resolver_plain_path (r : string) (pre post : list string)
        (port content : string) :
  devRootPath pkg = String slash r ->
  plain_name r = true ->
  plain_name port = true ->
  root_listed pkg w (pre ++ port :: post) ->
  forallb (passed_over pkg w serialName) pre = true ->
  ioutil_ReadFile w (name_file pkg port) = (content, None) ->
  strings_Contains content serialName = true ->
  findVirtualSerialPath pkg w serialName
  = (String slash (String.append r (String slash port)), None).
Proof.
  intros Hroot Hr Hp [[fd Hopen] Hlist] Hpre Hread Hc.
  unfold findVirtualSerialPath. rewrite Hopen, Hlist.
  rewrite scan_ports_skip_prefix by exact Hpre.
  rewrite (scan_ports_cons_match _ _ _ _ _ _ Hread Hc).
  rewrite Hroot, (filepath_Join_root_child _ _ Hr Hp). reflexivity.
Qed.
End ResolverFurther.

Lemma resolver_sound_witness :
  exists pre port post content a b,
    root_listed agent three_ports (pre ++ port :: post) /\
    forallb (passed_over agent three_ports "foo") pre = true /\
    ioutil_ReadFile three_ports (name_file agent port) = (content, None) /\
    content = String.append a (String.append "foo" b) /\
    "/dev/C"%string = filepath_Join [devRootPath agent; port].
Proof. apply (resolver_sound agent three_ports "foo" "/dev/C"). reflexivity. Defined.

Lemma resolver_error_no_path_witness :
  fst (findVirtualSerialPath agent three_ports_denied "foo") = EmptyString.
Proof.
  apply (resolver_error_no_path agent three_ports_denied "foo"
           (PathError "open" "/sys/class/virtio-ports/B/name" (Errno EACCES))).
  reflexivity.
Defined.

Lemma resolver_plain_path_witness :
  findVirtualSerialPath agent serial_world "agent.channel.0"
  = ("/dev/vport0p1"%string, None).
Proof.
  apply (resolver_plain_path agent serial_world "agent.channel.0" "dev" [] []
           "vport0p1" "agent.channel.0");
    try reflexivity.
  split; [exists 3|]; reflexivity.
Defined.

(** X12: for the empty name every name file that can be read matches:
    the resolver returns the first listed child whose name file exists,
    or fails on the first one that exists and cannot be read. *)
Theorem resolver_empty_name (pkg : Package) (w : World)
        (pre post : list string) (port : string) :
  root_listed pkg w (pre ++ port :: post) ->
  forallb (fun q => match ioutil_ReadFile w (name_file pkg q) with
                    | (_, Some err) => os_IsNotExist err
                    | (_, None) => false
                    end) pre = true ->
  (forall content,
      ioutil_ReadFile w (name_file pkg port) = (content, None) ->
      findVirtualSerialPath pkg w ""
      = (filepath_Join [devRootPath pkg; port], None)) /\
  (forall junk err,
      ioutil_ReadFile w (name_file pkg port) = (junk, Some err) ->
      os_IsNotExist err = false ->
      findVirtualSerialPath pkg w "" = (EmptyString, Some err)).
Proof.
  intros [[fd Hopen] Hlist] Hpre.
  assert (forallb (passed_over pkg w "") pre = true) as Hpassed.
  { rewrite forallb_forall in *. intros q Hq. specialize (Hpre q Hq).
    unfold passed_over.
    destruct (ioutil_ReadFile w (name_file pkg q)) as [c [err|]];
      [exact Hpre | discriminate]. }
  unfold findVirtualSerialPath. rewrite Hopen, Hlist.
  rewrite scan_ports_skip_prefix by exact Hpassed.
  split.
  - intros content Hread.
    rewrite (scan_ports_cons_match _ _ _ _ _ _ Hread (strings_Contains_empty _)).
    reflexivity.
  - intros junk err Hread Hne.
    rewrite (scan_ports_cons_fatal _ _ _ _ _ _ _ Hread Hne). reflexivity.
Qed.

Lemma resolver_empty_name_witness :
  findVirtualSerialPath agent three_ports "" = ("/dev/C"%string, None).
Proof.
  destruct (resolver_empty_name agent three_ports ["B"%string] ["A"%string] "C")
    as [Hfirst _].
  - split; [exists 3|]; reflexivity.
  - reflexivity.
  - apply (Hfirst "xxxfooyyy"%string). reflexivity.
Defined.

(* ================================================================== *)
(** * Readiness wait: further properties *)
(* ================================================================== *)

Lemma handle_events_results (fd : Z) (evs : list EpollEvent) (r : option error) :
  handle_events fd evs = Some r ->
  r = None \/ r = Some (ErrorString "serial port IO failure").
Proof.
  induction evs as [|ev evs IH]; [discriminate|].
  cbn [handle_events].
  destruct (Fd ev =? int32 fd); [|exact IH].
  destruct (negb (Z.land (Events ev) EPOLLOUT =? 0)).
  - intros H. inversion H. left. reflexivity.
  - destruct (negb (Z.land (Events ev) EPOLLERR =? 0)).
    + intros H. inversion H. right. reflexivity.
    + destruct (negb (Z.land (Events ev) EPOLLHUP =? 0)); exact IH.
Qed.

(** What the loop can return: nil, the IO failure, or the error of
    [EpollWait]. *)
Lemma wait_loop_results (fd : Z) (answers : list (sysres (list EpollEvent)))
      (r : option error) :
  wait_loop fd answers = Returned r ->
  r = None \/ r = Some (ErrorString "serial port IO failure") \/
  exists e, r = Some (Errno e).
Proof.
  induction answers as [|[evs|e] answers IH]; [discriminate| |].
  - cbn [wait_loop].
    destruct (handle_events fd evs) as [r'|] eqn:Hh; [|exact IH].
    intros H. inversion H; subst.
    destruct (handle_events_results _ _ _ Hh) as [-> | ->]; tauto.
  - cbn [wait_loop]. intros H. inversion H. right. right. exists e. reflexivity.
Qed.

Lemma wait_loop_prefix (fd : Z) (a b : list (sysres (list EpollEvent)))
      (r : option error) :
  wait_loop fd a = Returned r -> wait_loop fd (a ++ b) = Returned r.
Proof.
  induction a as [|[evs|e] a IH]; [discriminate| |].
  - cbn [app wait_loop]. destruct (handle_events fd evs); [tauto | exact IH].
  - cbn [app wait_loop]. tauto.
Qed.

Lemma handle_events_foreign (fd : Z) (evs : list EpollEvent) :
  forallb (fun ev => negb (Fd ev =? int32 fd)) evs = true ->
  handle_events fd evs = None.
Proof.
  induction evs as [|ev evs IH]; [reflexivity|].
  cbn [forallb handle_events]. intros H.
  apply andb_true_iff in H. destruct H as [Hev Hevs].
  apply negb_true_iff in Hev. rewrite Hev. apply IH, Hevs.
Qed.

(** X14: [wait] fails with [serial port IO closed] exactly when the
    descriptor number of the channel's file is zero. *)
Theorem serial_wait_closed_iff (k : Epoll) (c : serialChannel) :
  serial_wait k c = Returned (Some (ErrorString "serial port IO closed")) <->
  File_Fd (serialConn c) = 0.
Proof.
  unfold serial_wait.
  destruct (Z.eqb_spec (File_Fd (serialConn c)) 0) as [H0|Hne].
  - split; [intros _; exact H0 | reflexivity].
  - split; [|contradiction]. intros H. exfalso.
    destruct (epoll_create1 k EPOLL_CLOEXEC) as [epfd|e]; [|discriminate].
    destruct (epoll_ctl k epfd EPOLL_CTL_ADD _ _); [discriminate|].
    apply wait_loop_results in H.
    destruct H as [H | [H | [e H]]]; discriminate.
Qed.

(** X15: on a descriptor other than zero, a failure of [EpollCreate1], of
    the registering [EpollCtl], or of an [EpollWait] that follows events
    with neither the writable nor the error flag, is returned as it is;
    an interrupted [EpollWait] is not retried. *)
Theorem serial_wait_syscall_errors (k : Epoll) (c : serialChannel) :
  File_Fd (serialConn c) <> 0 ->
  (forall e, epoll_create1 k EPOLL_CLOEXEC = Failed e ->
             serial_wait k c = Returned (Some (Errno e))) /\
  (forall epfd e,
      epoll_create1 k EPOLL_CLOEXEC = Done epfd ->
      epoll_ctl k epfd EPOLL_CTL_ADD (File_Fd (serialConn c))
                (Some {| Events := wait_interest;
                         Fd := int32 (File_Fd (serialConn c)) |}) = Some e ->
      serial_wait k c = Returned (Some (Errno e))) /\
  (forall epfd quiet e rest,
      epoll_create1 k EPOLL_CLOEXEC = Done epfd ->
      epoll_ctl k epfd EPOLL_CTL_ADD (File_Fd (serialConn c))
                (Some {| Events := wait_interest;
                         Fd := int32 (File_Fd (serialConn c)) |}) = None ->
      forallb flags_quiet quiet = true ->
      epoll_wait k = delivered (File_Fd (serialConn c)) quiet ++ Failed e :: rest ->
      serial_wait k c = Returned (Some (Errno e))).
Proof.
  intros Hfd. apply Z.eqb_neq in Hfd. unfold serial_wait. rewrite Hfd.
  repeat split.
  - intros e ->. reflexivity.
  - intros epfd e -> ->. reflexivity.
  - intros epfd quiet e rest -> -> Hq ->.
    rewrite wait_loop_quiet by exact Hq. reflexivity.
Qed.

Lemma serial_wait_syscall_errors_witness :
  serial_wait (epoll_with (delivered 5 [EPOLLHUP] ++ [Failed EINTR]))
              (opened "/dev/vport0p1" 5)
  = Returned (Some (Errno EINTR)).
Proof.
  destruct (serial_wait_syscall_errors
              (epoll_with (delivered 5 [EPOLLHUP] ++ [Failed EINTR]))
              (opened "/dev/vport0p1" 5)) as (_ & _ & Hwait).
  - discriminate.
  - apply (Hwait 9 [EPOLLHUP] EINTR []); reflexivity.
Defined.

(** X16: answers of [EpollWait] whose events all belong to other
    descriptors decide nothing, whatever their flags. *)
Theorem wait_loop_other_descriptors (fd : Z) (batches : list (list EpollEvent))
        (rest : list (sysres (list EpollEvent))) :
  forallb (forallb (fun ev => negb (Fd ev =? int32 fd))) batches = true ->
  wait_loop fd (map Done batches ++ rest) = wait_loop fd rest.
Proof.
  induction batches as [|evs batches IH]; intros H; [reflexivity|].
  cbn [forallb] in H. apply andb_true_iff in H. destruct H as [Hevs Hb].
  cbn [map app wait_loop]. rewrite (handle_events_foreign _ _ Hevs).
  apply IH, Hb.
Qed.

Lemma wait_loop_other_descriptors_witness :
  wait_loop 5 (map Done [[{| Events := EPOLLERR; Fd := 6 |}];
                         [{| Events := EPOLLOUT; Fd := 7 |}]]
               ++ delivered 5 [EPOLLOUT])
  = wait_loop 5 (delivered 5 [EPOLLOUT]).
Proof.
  apply (wait_loop_other_descriptors 5
           [[{| Events := EPOLLERR; Fd := 6 |}];
            [{| Events := EPOLLOUT; Fd := 7 |}]]).
  reflexivity.
Defined.

(** X17: once [wait] has returned, answers that [EpollWait] would have
    given later change nothing. *)
Theorem serial_wait_prefix (k : Epoll) (c : serialChannel)
        (extra : list (sysres (list EpollEvent))) (r : option error) :
  serial_wait k c = Returned r ->
  serial_wait (more_answers k extra) c = Returned r.
Proof.
  unfold serial_wait, more_answers. cbn [epoll_create1 epoll_ctl epoll_wait].
  destruct (File_Fd (serialConn c) =? 0); [tauto|].
  destruct (epoll_create1 k EPOLL_CLOEXEC) as [epfd|e]; [|tauto].
  destruct (epoll_ctl k epfd EPOLL_CTL_ADD _ _); [tauto|].
  apply wait_loop_prefix.
Qed.

Lemma serial_wait_prefix_witness :
  serial_wait (more_answers (epoll_with (delivered 5 [EPOLLHUP; EPOLLOUT]))
                            (delivered 5 [EPOLLERR]))
              (opened "/dev/vport0p1" 5)
  = Returned None.
Proof.
  apply (serial_wait_prefix (epoll_with (delivered 5 [EPOLLHUP; EPOLLOUT]))).
  reflexivity.
Defined.

(** X18: events with neither the writable nor the error flag never end
    the wait: after any number of hangups the call is still blocked. *)
Theorem serial_wait_hangups_block (k : Epoll) (c : serialChannel) (epfd : Z)
        (quiet : list Z) :
  File_Fd (serialConn c) <> 0 ->
  epoll_create1 k EPOLL_CLOEXEC = Done epfd ->
  epoll_ctl k epfd EPOLL_CTL_ADD (File_Fd (serialConn c))
            (Some {| Events := wait_interest;
                     Fd := int32 (File_Fd (serialConn c)) |}) = None ->
  forallb flags_quiet quiet = true ->
  epoll_wait k = delivered (File_Fd (serialConn c)) quiet ->
  serial_wait k c = Blocked.
Proof.
  intros Hfd Hcreate Hctl Hquiet Hwait.
  unfold serial_wait. apply Z.eqb_neq in Hfd.
  rewrite Hfd, Hcreate, Hctl, Hwait. apply wait_loop_only_quiet, Hquiet.
Qed.

Lemma serial_wait_hangups_block_witness :
  serial_wait (epoll_with (delivered 5 [EPOLLHUP; EPOLLHUP; EPOLLHUP]))
              (opened "/dev/vport0p1" 5)
  = Blocked.
Proof.
  apply (serial_wait_hangups_block _ _ 9 [EPOLLHUP; EPOLLHUP; EPOLLHUP]);
    try reflexivity.
  discriminate.
Defined.

(* ================================================================== *)
(** * Teardown and lifecycle: further properties *)
(* ================================================================== *)

Lemma select_close_cases (timeout : Z) (ch : closeChan) (tie : bool) :
  (exists t, select_close timeout ch tie = Notified t /\
             0 <= t <= Z.max 0 timeout) \/
  select_close timeout ch tie = TimedOut (Z.max 0 timeout).
Proof.
  unfold select_close. destruct ch as [t|]; [|right; reflexivity].
  destruct (Z.ltb_spec (Z.max 0 t) (Z.max 0 timeout)).
  - left. eexists. split; [reflexivity | lia].
  - destruct (Z.ltb_spec (Z.max 0 timeout) (Z.max 0 t)); [right; reflexivity|].
    destruct tie; [right; reflexivity|].
    left. eexists. split; [reflexivity | lia].
Qed.

Lemma close_conn_closed_at_most_one (w : World) (c : serialChannel) (t : Z) :
  (length (td_closed (close_conn w c t)) <= 1)%nat /\
  td_elapsed (close_conn w c t) = t /\
  waitCh (td_chan (close_conn w c t)) = waitCh c /\
  (td_closed (close_conn w c t) <> [] ->
   conn_closed (td_chan (close_conn w c t)) = true) /\
  (conn_closed c = true -> td_closed (close_conn w c t) = [] /\
                           conn_closed (td_chan (close_conn w c t)) = true).
Proof.
  unfold close_conn, File_Close, conn_closed.
  destruct (serialConn c) as [f|]; [destruct (file_closed f) eqn:Hf|];
    cbn [td_closed td_elapsed td_chan waitCh serialConn file_closed length];
    repeat split; try lia; try reflexivity; try congruence;
    try (intros H; exfalso; apply H; reflexivity); try discriminate.
Qed.


Lemma teardown_closed_at_most_one (pkg : Package) (w : World) (tie : bool)
      (c : serialChannel) :
  (length (td_closed (serial_teardown pkg w tie c)) <= 1)%nat /\
  (td_closed (serial_teardown pkg w tie c) <> [] ->
   conn_closed (td_chan (serial_teardown pkg w tie c)) = true) /\
  (conn_closed c = true -> td_closed (serial_teardown pkg w tie c) = []).
Proof.
  unfold serial_teardown. destruct (waitCh c) as [ch|].
  - destruct (select_close (channelCloseTimeout pkg) ch tie) as [t|t].
    + destruct (close_conn_closed_at_most_one w c t) as (H1 & _ & _ & H2 & H3).
      repeat split; [exact H1 | exact H2 | intros H; apply H3, H].
    + cbn [td_closed td_chan length].
      repeat split; [lia | intros H; exfalso; apply H; reflexivity].
  - destruct (close_conn_closed_at_most_one w c 0) as (H1 & _ & _ & H2 & H3).
    repeat split; [exact H1 | exact H2 | intros H; apply H3, H].
Qed.

(** X20: two calls of [teardown] in a row hand the descriptor to
    [close(2)] at most once: after a call that closed it, the next call
    closes nothing. *)
Theorem teardown_never_closes_twice (pkg : Package) (w w' : World)
        (tie tie' : bool) (c : serialChannel) :
  (length (td_closed (serial_teardown pkg w tie c)
           ++ td_closed (serial_teardown pkg w' tie'
                           (td_chan (serial_teardown pkg w tie c)))) <= 1)%nat.
Proof.
  rewrite length_app.
  destruct (teardown_closed_at_most_one pkg w tie c) as (H1 & H2 & _).
  destruct (teardown_closed_at_most_one pkg w' tie'
              (td_chan (serial_teardown pkg w tie c))) as (H1' & _ & H3').
  destruct (td_closed (serial_teardown pkg w tie c)) as [|fd fds] eqn:Hc.
  - cbn [length]. lia.
  - rewrite H3' by (apply H2; discriminate). cbn [length] in *. lia.
Qed.




(** X22: [setup] followed by [teardown], with no [listen] in between:
    the descriptor [setup] opened is closed once, at once, and the
    result of closing it is the result of [teardown]; a failing [setup]
    leaves the channel without a file. *)
Theorem setup_then_teardown (pkg : Package) (w w' : World) (tie : bool)
        (path : string) :
  (forall fd,
      sys_open w path = Done fd ->
      snd (serial_setup w (new_serialChannel path)) = None /\
      serial_teardown pkg w' tie (fst (serial_setup w (new_serialChannel path)))
      = {| td_err := close_error w' path fd;
           td_chan := {| serialPath := path;
                         serialConn := Some {| file_fd := fd; file_closed := true |};
                         waitCh := None |};
           td_elapsed := 0;
           td_closed := [fd] |}) /\
  (forall e,
      sys_open w path = Failed e ->
      serial_setup w (new_serialChannel path)
      = (new_serialChannel path, Some (PathError "open" path (Errno e))) /\
      td_closed (serial_teardown pkg w' tie
                   (fst (serial_setup w (new_serialChannel path)))) = [] /\
      td_err (serial_teardown pkg w' tie
                (fst (serial_setup w (new_serialChannel path))))
      = Some (ErrorString "invalid argument")).
Proof.
  unfold serial_setup. cbn [new_serialChannel serialPath].
  split.
  - intros fd ->. split; reflexivity.
  - intros e ->. repeat split.
Qed.



Lemma select_close_timed_out_iff (timeout : Z) (ch : closeChan) (tie : bool) :
  select_close timeout ch tie = TimedOut (Z.max 0 timeout) <->
  timer_wins timeout ch tie.
Proof.
  unfold select_close, timer_wins. destruct ch as [t|]; [|tauto].
  destruct (Z.ltb_spec (Z.max 0 t) (Z.max 0 timeout)).
  - split; [discriminate | intros [H' | [H' _]]; lia].
  - destruct (Z.ltb_spec (Z.max 0 timeout) (Z.max 0 t)).
    + split; [intros _; left; assumption | reflexivity].
    + destruct tie.
      * split; [intros _; right; split; [lia | reflexivity] | reflexivity].
      * split; [discriminate | intros [H' | [_ H']]; [lia | discriminate]].
Qed.

Lemma close_conn_error_not_timeout (w : World) (c : serialChannel) (t : Z) :
  td_err (close_conn w c t) <> Some teardown_timeout_error.
Proof.
  unfold close_conn, File_Close.
  destruct (serialConn c) as [f|]; [destruct (file_closed f)|];
    cbn [td_err]; try discriminate.
  destruct (sys_close w (file_fd f)); discriminate.
Qed.

(** X24: [teardown] reports the timeout error exactly when there is a
    session and the timer wins the [select]; it then closes nothing and
    leaves the channel as it was. *)
Theorem teardown_timeout_iff (pkg : Package) (w : World) (tie : bool)
        (c : serialChannel) :
  (td_err (serial_teardown pkg w tie c) = Some teardown_timeout_error <->
   exists ch, waitCh c = Some ch /\
              timer_wins (channelCloseTimeout pkg) ch tie) /\
  (td_err (serial_teardown pkg w tie c) = Some teardown_timeout_error ->
   td_closed (serial_teardown pkg w tie c) = [] /\
   td_chan (serial_teardown pkg w tie c) = c).
Proof.
  unfold serial_teardown. destruct (waitCh c) as [ch|].
  - destruct (select_close_cases (channelCloseTimeout pkg) ch tie)
      as [(t & Hsel & _) | Hsel].
    + rewrite Hsel. split.
      * split.
        -- intros H. exfalso. exact (close_conn_error_not_timeout _ _ _ H).
        -- intros (ch' & Hch & Hwin). inversion Hch; subst ch'.
           apply select_close_timed_out_iff in Hwin. congruence.
      * intros H. exfalso. exact (close_conn_error_not_timeout _ _ _ H).
    + rewrite Hsel. cbn [td_err td_closed td_chan]. split.
      * split; [|reflexivity]. intros _. exists ch. split; [reflexivity|].
        apply select_close_timed_out_iff, Hsel.
      * intros _. split; reflexivity.
  - split.
    + split.
      * intros H. exfalso. exact (close_conn_error_not_timeout _ _ _ H).
      * intros (ch & Hch & _). discriminate.
    + intros H. exfalso. exact (close_conn_error_not_timeout _ _ _ H).
Qed.
